(** * Legacy listers: label-selector relationship resolution over a cached store

    A shallow embedding of [pkg/client/legacylisters/listers_core.go]: the
    typed listers for pods, services and replication controllers, and the
    two resolvers [GetPodServices] and [GetPodControllers].

    Conventions of the embedding:
    - a Go [map[string]string] is an [option (gmap string string)], where
      [None] is the nil map (the source tests [== nil] and [len(..) == 0]);
    - a Go slice is a [list]; the nil slice is [[]];
    - a value of type [interface{}] held by the store is an [Object], a
      tagged union over the kinds a store may hold;
    - a Go [(value, error)] result is a pair whose second component is an
      [option error] ([None] is the nil error);
    - a failed unchecked type assertion is a run-time panic; it is the
      [Panics] outcome of the monad [M], which also records every access
      made to the store. *)

From Stdlib Require Import String.
From stdpp Require Import gmap strings list fin_maps.

Open Scope string_scope.

(** ** Go maps *)

Abbreviation gomap := (option (gmap string string)).

(** [len(m)]: zero for the nil map. *)
Definition map_len (m : gomap) : nat :=
  match m with
  | None => 0
  | Some g => size g
  end.

(** [v, ok := m[k]]: reading the nil map finds nothing. *)
Definition map_get (m : gomap) (k : string) : option string :=
  match m with
  | None => None
  | Some g => g !! k
  end.

(** ** k8s.io/apimachinery/pkg/labels *)

Module labels.

(** [labels.Set] is a conversion of [map[string]string]. *)
Abbreviation Set_ := gomap.

(** Modelled from the spec: the labels package is not among the sources.
    Selectors are "restricted to equality-based label-set matching (no
    set-based/operator selectors)": a requirement demands that a key is
    present with a given value. *)
Record Requirement := { key : string; value : string }.

(** Modelled from the spec: a selector is a list of requirements; the
    "empty" selector has zero requirements. *)
Definition Selector := list Requirement.

(** Modelled from the spec: "selector = match-everything". *)
Definition Everything : Selector := [].

(** Modelled from the spec: "[Empty() -> bool] (true iff zero
    requirements)". *)
Definition Empty (s : Selector) : bool :=
  match s with
  | [] => true
  | _ :: _ => false
  end.

Definition Requirement_Matches (r : Requirement) (ls : Set_) : bool :=
  bool_decide (map_get ls (key r) = Some (value r)).

(** Modelled from the spec: "[Matches(labelMapping) -> bool]"; "an empty
    selector (zero requirements) by construction matches everything". *)
Definition Matches (s : Selector) (ls : Set_) : bool :=
  forallb (λ r, Requirement_Matches r ls) s.

(** Modelled from the spec: the selector derived from a declared
    "selects-by" label mapping has one equality requirement per pair.  The
    nil mapping has no pair, so the derived selector has zero requirements;
    this is why both resolvers guard against it (source lines 129-132 and
    198-201: "an rc with a nil or empty selector ... should match nothing,
    not everything"). *)
Definition AsSelectorPreValidated (ls : Set_) : Selector :=
  match ls with
  | None => []
  | Some g => (λ kv, {| key := kv.1; value := kv.2 |}) <$> map_to_list g
  end.

End labels.

(** ** k8s.io/apimachinery/pkg/apis/meta/v1 and k8s.io/kubernetes/pkg/api/v1 *)

Module metav1.

Record ObjectMeta := {
  Name : string;
  Namespace : string;
  Labels : gomap
}.

End metav1.

Module v1.

Record Pod := { Pod_ObjectMeta : metav1.ObjectMeta }.

Record ServiceSpec := { ServiceSpec_Selector : gomap }.

Record Service := {
  Service_ObjectMeta : metav1.ObjectMeta;
  Service_Spec : ServiceSpec
}.

Record ReplicationControllerSpec := { ReplicationControllerSpec_Selector : gomap }.

Record ReplicationController := {
  ReplicationController_ObjectMeta : metav1.ObjectMeta;
  ReplicationController_Spec : ReplicationControllerSpec
}.

End v1.

(** The dynamic values ([interface{}]) a store holds or is probed with.
    [OtherObject] stands for every kind the three listers below do not
    expect (service accounts, limit ranges, claims, namespaces, ...);
    [MetaObject] is a bare [*metav1.ObjectMeta], used as a probe key. *)
Inductive Object :=
  | PodObject (p : v1.Pod)
  | ServiceObject (s : v1.Service)
  | ReplicationControllerObject (rc : v1.ReplicationController)
  | MetaObject (m : metav1.ObjectMeta)
  | OtherObject (kind : string) (m : metav1.ObjectMeta).

(** [meta.Accessor]: every kind above carries object metadata. *)
Definition Accessor (o : Object) : metav1.ObjectMeta :=
  match o with
  | PodObject p => v1.Pod_ObjectMeta p
  | ServiceObject s => v1.Service_ObjectMeta s
  | ReplicationControllerObject rc => v1.ReplicationController_ObjectMeta rc
  | MetaObject m => m
  | OtherObject _ m => m
  end.

(** ** Errors *)

(** An argument of a [fmt.Errorf] call. *)
Inductive fmtarg :=
  | ArgString (s : string)
  | ArgLabels (m : gomap).

Inductive error :=
  (** [errors.NewNotFound(api.Resource(resource), name)] *)
  | NewNotFound (resource : string) (name : string)
  (** [fmt.Errorf(format, args...)], kept unformatted *)
  | Errorf (format : string) (args : list fmtarg)
  (** an error raised by the store itself *)
  | StoreError (msg : string).

(** ** Effects: store accesses and panics *)

Inductive access :=
  | ListAccess
  | GetByKeyAccess (key : string)
  | IndexAccess (indexName : string) (probe : Object).

Inductive outcome (A : Type) :=
  | Returns (a : A)
  | Panics.
Arguments Returns {A} a.
Arguments Panics {A}.

(** A computation yields the trace of its store accesses and either a
    value or a panic. *)
Definition M (A : Type) : Type := list access * outcome A.

#[global] Instance M_ret : MRet M := λ A a, ([], Returns a).

#[global] Instance M_bind : MBind M := λ A B f m,
  match m with
  | (t, Returns a) => let (t', r) := f a in ((t ++ t')%list, r)
  | (t, Panics) => (t, Panics)
  end.

Definition panic {A : Type} : M A := ([], Panics).

(** The trace of a computation, and its value when it does not panic. *)
Definition trace_of {A : Type} (c : M A) : list access := c.1.

Definition result_of {A : Type} (c : M A) : option A :=
  match c.2 with
  | Returns a => Some a
  | Panics => None
  end.

(** ** k8s.io/kubernetes/pkg/client/cache *)

Module cache.

(** Modelled from the spec: the store contract of section 6,
    "[GetByKey(compositeKey) -> (object, found, err)]", "snapshot of all
    objects" and "[ListByNamespaceIndex(namespace)] -> snapshot restricted
    to namespace".  The source calls the last one as
    [Index(indexName, probe)] with a result [(items, err)], and the spec
    lets the enumeration itself fail ("unless the store itself fails to
    enumerate"), so [List] carries an error as well. *)
Record Indexer := {
  List : list Object * option error;
  GetByKey : string → option Object * bool * option error;
  Index : string → Object → list Object * option error
}.

(** Modelled from the spec: the name of "the namespace index". *)
Definition NamespaceIndex : string := "namespace".

(** Every call on the store is recorded in the trace. *)
Definition call_List (ix : Indexer) : M (list Object * option error) :=
  ([ListAccess], Returns (List ix)).

Definition call_GetByKey (ix : Indexer) (k : string)
  : M (option Object * bool * option error) :=
  ([GetByKeyAccess k], Returns (GetByKey ix k)).

Definition call_Index (ix : Indexer) (indexName : string) (probe : Object)
  : M (list Object * option error) :=
  ([IndexAccess indexName probe], Returns (Index ix indexName probe)).

(** The loop shared by both listing helpers: every item whose labels
    satisfy the selector is handed to [appendFn], which updates the state
    [S] captured by the caller's closure (and may panic). *)
Fixpoint appendMatching {S : Type} (selector : labels.Selector)
    (appendFn : Object → S → M S) (items : list Object) (ret : S) : M S :=
  match items with
  | [] => mret ret
  | m :: rest =>
      if labels.Matches selector (metav1.Labels (Accessor m))
      then ret' ← appendFn m ret; appendMatching selector appendFn rest ret'
      else appendMatching selector appendFn rest ret
  end.

(** Modelled from the spec: [cache.ListAll] is not among the sources.
    "Snapshot the entire store, keep only entries whose labels satisfy
    [selector]"; "never returns a partial error unless the store itself
    fails to enumerate, in which case it surfaces a [StoreUnavailable]
    condition". *)
Definition ListAll {S : Type} (store : Indexer) (selector : labels.Selector)
    (appendFn : Object → S → M S) (ret : S) : M (S * option error) :=
  '(items, err) ← call_List store;
  match err with
  | Some e => mret (ret, Some e)
  | None => ret' ← appendMatching selector appendFn items ret; mret (ret', None)
  end.

(** Modelled from the spec: [cache.ListAllByNamespace] is not among the
    sources.  "Same filtering, restricted to one namespace; must use the
    store's namespace-indexed enumeration path (not a full scan)", probed
    with "a namespace-only probe key". *)
Definition ListAllByNamespace {S : Type} (indexer : Indexer) (namespace : string)
    (selector : labels.Selector) (appendFn : Object → S → M S) (ret : S)
  : M (S * option error) :=
  '(items, err) ← call_Index indexer NamespaceIndex
      (MetaObject {| metav1.Name := ""; metav1.Namespace := namespace;
                     metav1.Labels := None |});
  match err with
  | Some e => mret (ret, Some e)
  | None => ret' ← appendMatching selector appendFn items ret; mret (ret', None)
  end.

(** Modelled from the spec: the object store itself, "a thread-safe,
    namespace-and-key indexed mapping from composite key to object, with
    snapshot listing".  A state of the store is a finite map from keys to
    objects; the namespace index returns the objects whose namespace is
    the probe's; any other index name is unknown to the store. *)
Definition newIndexer (m : gmap string Object) : Indexer := {|
  List := ((map_to_list m).*2, None);
  GetByKey := λ k, (m !! k, bool_decide (is_Some (m !! k)), None);
  Index := λ indexName probe,
    if String.eqb indexName NamespaceIndex
    then (filter (λ o, metav1.Namespace (Accessor o)
                       = metav1.Namespace (Accessor probe))
                 (map_to_list m).*2, None)
    else ([], Some (StoreError "index does not exist"))
|}.

End cache.

(** ** pkg/client/legacylisters/listers_core.go *)

Module listers.

(** The unchecked type assertions of the source.  The asserted value is
    an item of a store listing ([assert_*]) or the first result of
    [GetByKey], which may be the nil interface ([assert_*_value]). *)
Definition assert_Pod (m : Object) : M v1.Pod :=
  match m with
  | PodObject p => mret p
  | _ => panic
  end.

Definition assert_Service (m : Object) : M v1.Service :=
  match m with
  | ServiceObject s => mret s
  | _ => panic
  end.

Definition assert_ReplicationController (m : Object) : M v1.ReplicationController :=
  match m with
  | ReplicationControllerObject rc => mret rc
  | _ => panic
  end.

Definition assert_Pod_value (obj : option Object) : M v1.Pod :=
  match obj with
  | Some m => assert_Pod m
  | None => panic
  end.

Definition assert_Service_value (obj : option Object) : M v1.Service :=
  match obj with
  | Some m => assert_Service m
  | None => panic
  end.

Definition assert_ReplicationController_value (obj : option Object)
  : M v1.ReplicationController :=
  match obj with
  | Some m => assert_ReplicationController m
  | None => panic
  end.

(** *** Pods (source lines 41-78) *)

Record StoreToPodLister := { StoreToPodLister_Indexer : cache.Indexer }.

Record storePodsNamespacer := {
  storePodsNamespacer_Indexer : cache.Indexer;
  storePodsNamespacer_namespace : string
}.

Definition StoreToPodLister_List (s : StoreToPodLister) (selector : labels.Selector)
  : M (list v1.Pod * option error) :=
  cache.ListAll (StoreToPodLister_Indexer s) selector
    (λ m ret, p ← assert_Pod m; mret (ret ++ [p])%list) [].

Definition StoreToPodLister_Pods (s : StoreToPodLister) (namespace : string)
  : storePodsNamespacer :=
  {| storePodsNamespacer_Indexer := StoreToPodLister_Indexer s;
     storePodsNamespacer_namespace := namespace |}.

Definition storePodsNamespacer_List (s : storePodsNamespacer)
    (selector : labels.Selector) : M (list v1.Pod * option error) :=
  cache.ListAllByNamespace (storePodsNamespacer_Indexer s)
    (storePodsNamespacer_namespace s) selector
    (λ m ret, p ← assert_Pod m; mret (ret ++ [p])%list) [].

Definition storePodsNamespacer_Get (s : storePodsNamespacer) (name : string)
  : M (option v1.Pod * option error) :=
  '(obj, exists_, err) ← cache.call_GetByKey (storePodsNamespacer_Indexer s)
      (storePodsNamespacer_namespace s +:+ "/" +:+ name);
  match err with
  | Some e => mret (None, Some e)
  | None =>
      if negb exists_
      then mret (None, Some (NewNotFound "pod" name))
      else p ← assert_Pod_value obj; mret (Some p, None)
  end.

(** *** Services (source lines 80-140) *)

Record StoreToServiceLister := { StoreToServiceLister_Indexer : cache.Indexer }.

Record storeServicesNamespacer := {
  storeServicesNamespacer_indexer : cache.Indexer;
  storeServicesNamespacer_namespace : string
}.

Definition StoreToServiceLister_List (s : StoreToServiceLister)
    (selector : labels.Selector) : M (list v1.Service * option error) :=
  cache.ListAll (StoreToServiceLister_Indexer s) selector
    (λ m ret, x ← assert_Service m; mret (ret ++ [x])%list) [].

Definition StoreToServiceLister_Services (s : StoreToServiceLister)
    (namespace : string) : storeServicesNamespacer :=
  {| storeServicesNamespacer_indexer := StoreToServiceLister_Indexer s;
     storeServicesNamespacer_namespace := namespace |}.

Definition storeServicesNamespacer_List (s : storeServicesNamespacer)
    (selector : labels.Selector) : M (list v1.Service * option error) :=
  cache.ListAllByNamespace (storeServicesNamespacer_indexer s)
    (storeServicesNamespacer_namespace s) selector
    (λ m ret, x ← assert_Service m; mret (ret ++ [x])%list) [].

Definition storeServicesNamespacer_Get (s : storeServicesNamespacer) (name : string)
  : M (option v1.Service * option error) :=
  '(obj, exists_, err) ← cache.call_GetByKey (storeServicesNamespacer_indexer s)
      (storeServicesNamespacer_namespace s +:+ "/" +:+ name);
  match err with
  | Some e => mret (None, Some e)
  | None =>
      if negb exists_
      then mret (None, Some (NewNotFound "service" name))
      else x ← assert_Service_value obj; mret (Some x, None)
  end.

(** One iteration of the loop of [GetPodServices] (lines 127-137). *)
Definition GetPodServices_step (pod : v1.Pod) (services : list v1.Service)
    (service : v1.Service) : list v1.Service :=
  match v1.ServiceSpec_Selector (v1.Service_Spec service) with
  | None => services
  | Some _ =>
      let selector :=
        labels.AsSelectorPreValidated
          (v1.ServiceSpec_Selector (v1.Service_Spec service)) in
      if labels.Matches selector (metav1.Labels (v1.Pod_ObjectMeta pod))
      then (services ++ [service])%list
      else services
  end.

(** Lines 123-139: what [GetPodServices] does with the two results
    [allServices, err] of the listing of line 122. *)
Definition GetPodServices_of_listing (pod : v1.Pod) (allServices : list v1.Service)
    (err : option error) : M (list v1.Service * option error) :=
  match err with
  | Some e => mret ([], Some e)
  | None => mret (foldl (GetPodServices_step pod) [] allServices, None)
  end.

Definition GetPodServices (s : StoreToServiceLister) (pod : v1.Pod)
  : M (list v1.Service * option error) :=
  '(allServices, err) ←
    storeServicesNamespacer_List
      (StoreToServiceLister_Services s (metav1.Namespace (v1.Pod_ObjectMeta pod)))
      labels.Everything;
  GetPodServices_of_listing pod allServices err.

(** *** Replication controllers (source lines 142-208) *)

Record StoreToReplicationControllerLister :=
  { StoreToReplicationControllerLister_Indexer : cache.Indexer }.

Record storeReplicationControllersNamespacer := {
  storeReplicationControllersNamespacer_indexer : cache.Indexer;
  storeReplicationControllersNamespacer_namespace : string
}.

Definition StoreToReplicationControllerLister_List
    (s : StoreToReplicationControllerLister) (selector : labels.Selector)
  : M (list v1.ReplicationController * option error) :=
  cache.ListAll (StoreToReplicationControllerLister_Indexer s) selector
    (λ m ret, rc ← assert_ReplicationController m; mret (ret ++ [rc])%list) [].

Definition StoreToReplicationControllerLister_ReplicationControllers
    (s : StoreToReplicationControllerLister) (namespace : string)
  : storeReplicationControllersNamespacer :=
  {| storeReplicationControllersNamespacer_indexer :=
       StoreToReplicationControllerLister_Indexer s;
     storeReplicationControllersNamespacer_namespace := namespace |}.

Definition storeReplicationControllersNamespacer_List
    (s : storeReplicationControllersNamespacer) (selector : labels.Selector)
  : M (list v1.ReplicationController * option error) :=
  cache.ListAllByNamespace (storeReplicationControllersNamespacer_indexer s)
    (storeReplicationControllersNamespacer_namespace s) selector
    (λ m ret, rc ← assert_ReplicationController m; mret (ret ++ [rc])%list) [].

Definition storeReplicationControllersNamespacer_Get
    (s : storeReplicationControllersNamespacer) (name : string)
  : M (option v1.ReplicationController * option error) :=
  '(obj, exists_, err) ←
    cache.call_GetByKey (storeReplicationControllersNamespacer_indexer s)
      (storeReplicationControllersNamespacer_namespace s +:+ "/" +:+ name);
  match err with
  | Some e => mret (None, Some e)
  | None =>
      if negb exists_
      then mret (None, Some (NewNotFound "replicationcontroller" name))
      else rc ← assert_ReplicationController_value obj; mret (Some rc, None)
  end.

(** The loop of [GetPodControllers] (lines 194-203) over the items the
    namespace index returned, with the slice [controllers] built so far. *)
Fixpoint GetPodControllers_loop (pod : v1.Pod) (items : list Object)
    (controllers : list v1.ReplicationController)
  : M (list v1.ReplicationController) :=
  match items with
  | [] => mret controllers
  | m :: rest =>
      rc ← assert_ReplicationController m;
      let selector :=
        labels.AsSelectorPreValidated
          (v1.ReplicationControllerSpec_Selector
             (v1.ReplicationController_Spec rc)) in
      if labels.Empty selector
         || negb (labels.Matches selector (metav1.Labels (v1.Pod_ObjectMeta pod)))
      then GetPodControllers_loop pod rest controllers
      else GetPodControllers_loop pod rest (controllers ++ [rc])%list
  end.

Definition errNoLabels (pod : v1.Pod) : error :=
  Errorf "no controllers found for pod %v because it has no labels"
    [ArgString (metav1.Name (v1.Pod_ObjectMeta pod))].

Definition errNoController (pod : v1.Pod) : error :=
  Errorf "could not find controller for pod %s in namespace %s with labels: %v"
    [ArgString (metav1.Name (v1.Pod_ObjectMeta pod));
     ArgString (metav1.Namespace (v1.Pod_ObjectMeta pod));
     ArgLabels (metav1.Labels (v1.Pod_ObjectMeta pod))].

(** The probe of line 188: a replication controller with only its
    namespace set. *)
Definition probeKey (pod : v1.Pod) : Object :=
  ReplicationControllerObject
    {| v1.ReplicationController_ObjectMeta :=
         {| metav1.Name := "";
            metav1.Namespace := metav1.Namespace (v1.Pod_ObjectMeta pod);
            metav1.Labels := None |};
       v1.ReplicationController_Spec :=
         {| v1.ReplicationControllerSpec_Selector := None |} |}.

Definition GetPodControllers (s : StoreToReplicationControllerLister) (pod : v1.Pod)
  : M (list v1.ReplicationController * option error) :=
  if Nat.eqb (map_len (metav1.Labels (v1.Pod_ObjectMeta pod))) 0
  then mret ([], Some (errNoLabels pod))
  else
    let key := probeKey pod in
    '(items, err) ←
      cache.call_Index (StoreToReplicationControllerLister_Indexer s)
        cache.NamespaceIndex key;
    match err with
    | Some e => mret ([], Some e)
    | None =>
        controllers ← GetPodControllers_loop pod items [];
        if Nat.eqb (length controllers) 0
        then mret (controllers, Some (errNoController pod))
        else mret (controllers, None)
    end.

End listers.

(** ** The remaining kinds and listers of listers_core.go (lines 210-351) *)

(** The kinds of [pkg/api/v1] the remaining listers expect, reduced to
    their object metadata. *)
Module v1kinds.

Record ServiceAccount := { ServiceAccount_ObjectMeta : metav1.ObjectMeta }.

Record LimitRange := { LimitRange_ObjectMeta : metav1.ObjectMeta }.

Record PersistentVolumeClaim :=
  { PersistentVolumeClaim_ObjectMeta : metav1.ObjectMeta }.

Record Namespace := { Namespace_ObjectMeta : metav1.ObjectMeta }.

(** In the store these are the [OtherObject]s tagged with the name of
    their Go type. *)
Definition ServiceAccountObject (x : ServiceAccount) : Object :=
  OtherObject "ServiceAccount" (ServiceAccount_ObjectMeta x).

Definition LimitRangeObject (x : LimitRange) : Object :=
  OtherObject "LimitRange" (LimitRange_ObjectMeta x).

Definition PersistentVolumeClaimObject (x : PersistentVolumeClaim) : Object :=
  OtherObject "PersistentVolumeClaim" (PersistentVolumeClaim_ObjectMeta x).

Definition NamespaceObject (x : Namespace) : Object :=
  OtherObject "Namespace" (Namespace_ObjectMeta x).

End v1kinds.

Module listers_rest.

(** The unchecked type assertion to one of the kinds of [v1kinds]: the
    dynamic type must be the asserted one. *)
Definition assert_kind (kind : string) (m : Object) : M metav1.ObjectMeta :=
  match m with
  | OtherObject k meta => if String.eqb k kind then mret meta else panic
  | _ => panic
  end.

Definition assert_ServiceAccount (m : Object) : M v1kinds.ServiceAccount :=
  meta ← assert_kind "ServiceAccount" m;
  mret {| v1kinds.ServiceAccount_ObjectMeta := meta |}.

Definition assert_LimitRange (m : Object) : M v1kinds.LimitRange :=
  meta ← assert_kind "LimitRange" m;
  mret {| v1kinds.LimitRange_ObjectMeta := meta |}.

Definition assert_PersistentVolumeClaim (m : Object)
  : M v1kinds.PersistentVolumeClaim :=
  meta ← assert_kind "PersistentVolumeClaim" m;
  mret {| v1kinds.PersistentVolumeClaim_ObjectMeta := meta |}.

Definition assert_Namespace (m : Object) : M v1kinds.Namespace :=
  meta ← assert_kind "Namespace" m;
  mret {| v1kinds.Namespace_ObjectMeta := meta |}.

(** The same assertions on the first result of [GetByKey], which may be
    the nil interface. *)
Definition assert_value {T : Type} (assert_T : Object → M T) (obj : option Object)
  : M T :=
  match obj with
  | Some m => assert_T m
  | None => panic
  end.

(** *** Service accounts (source lines 210-247) *)

Record StoreToServiceAccountLister :=
  { StoreToServiceAccountLister_Indexer : cache.Indexer }.

Record storeServiceAccountsNamespacer := {
  storeServiceAccountsNamespacer_indexer : cache.Indexer;
  storeServiceAccountsNamespacer_namespace : string
}.

Definition StoreToServiceAccountLister_List (s : StoreToServiceAccountLister)
    (selector : labels.Selector) : M (list v1kinds.ServiceAccount * option error) :=
  cache.ListAll (StoreToServiceAccountLister_Indexer s) selector
    (λ m ret, x ← assert_ServiceAccount m; mret (ret ++ [x])%list) [].

Definition StoreToServiceAccountLister_ServiceAccounts
    (s : StoreToServiceAccountLister) (namespace : string)
  : storeServiceAccountsNamespacer :=
  {| storeServiceAccountsNamespacer_indexer := StoreToServiceAccountLister_Indexer s;
     storeServiceAccountsNamespacer_namespace := namespace |}.

Definition storeServiceAccountsNamespacer_List (s : storeServiceAccountsNamespacer)
    (selector : labels.Selector) : M (list v1kinds.ServiceAccount * option error) :=
  cache.ListAllByNamespace (storeServiceAccountsNamespacer_indexer s)
    (storeServiceAccountsNamespacer_namespace s) selector
    (λ m ret, x ← assert_ServiceAccount m; mret (ret ++ [x])%list) [].

Definition storeServiceAccountsNamespacer_Get (s : storeServiceAccountsNamespacer)
    (name : string) : M (option v1kinds.ServiceAccount * option error) :=
  '(obj, exists_, err) ←
    cache.call_GetByKey (storeServiceAccountsNamespacer_indexer s)
      (storeServiceAccountsNamespacer_namespace s +:+ "/" +:+ name);
  match err with
  | Some e => mret (None, Some e)
  | None =>
      if negb exists_
      then mret (None, Some (NewNotFound "serviceaccount" name))
      else x ← assert_value assert_ServiceAccount obj; mret (Some x, None)
  end.

(** *** Limit ranges (source lines 249-259 and 274-299) *)

Record StoreToLimitRangeLister := { StoreToLimitRangeLister_Indexer : cache.Indexer }.

Record storeLimitRangesNamespacer := {
  storeLimitRangesNamespacer_indexer : cache.Indexer;
  storeLimitRangesNamespacer_namespace : string
}.

Definition StoreToLimitRangeLister_List (s : StoreToLimitRangeLister)
    (selector : labels.Selector) : M (list v1kinds.LimitRange * option error) :=
  cache.ListAll (StoreToLimitRangeLister_Indexer s) selector
    (λ m ret, x ← assert_LimitRange m; mret (ret ++ [x])%list) [].

Definition StoreToLimitRangeLister_LimitRanges (s : StoreToLimitRangeLister)
    (namespace : string) : storeLimitRangesNamespacer :=
  {| storeLimitRangesNamespacer_indexer := StoreToLimitRangeLister_Indexer s;
     storeLimitRangesNamespacer_namespace := namespace |}.

Definition storeLimitRangesNamespacer_List (s : storeLimitRangesNamespacer)
    (selector : labels.Selector) : M (list v1kinds.LimitRange * option error) :=
  cache.ListAllByNamespace (storeLimitRangesNamespacer_indexer s)
    (storeLimitRangesNamespacer_namespace s) selector
    (λ m ret, x ← assert_LimitRange m; mret (ret ++ [x])%list) [].

Definition storeLimitRangesNamespacer_Get (s : storeLimitRangesNamespacer)
    (name : string) : M (option v1kinds.LimitRange * option error) :=
  '(obj, exists_, err) ←
    cache.call_GetByKey (storeLimitRangesNamespacer_indexer s)
      (storeLimitRangesNamespacer_namespace s +:+ "/" +:+ name);
  match err with
  | Some e => mret (None, Some e)
  | None =>
      if negb exists_
      then mret (None, Some (NewNotFound "limitrange" name))
      else x ← assert_value assert_LimitRange obj; mret (Some x, None)
  end.

(** *** Persistent volume claims (source lines 261-272 and 301-327) *)

Record StoreToPersistentVolumeClaimLister :=
  { StoreToPersistentVolumeClaimLister_Indexer : cache.Indexer }.

Record storePersistentVolumeClaimsNamespacer := {
  storePersistentVolumeClaimsNamespacer_Indexer : cache.Indexer;
  storePersistentVolumeClaimsNamespacer_namespace : string
}.

Definition StoreToPersistentVolumeClaimLister_List
    (s : StoreToPersistentVolumeClaimLister) (selector : labels.Selector)
  : M (list v1kinds.PersistentVolumeClaim * option error) :=
  cache.ListAll (StoreToPersistentVolumeClaimLister_Indexer s) selector
    (λ m ret, x ← assert_PersistentVolumeClaim m; mret (ret ++ [x])%list) [].

Definition StoreToPersistentVolumeClaimLister_PersistentVolumeClaims
    (s : StoreToPersistentVolumeClaimLister) (namespace : string)
  : storePersistentVolumeClaimsNamespacer :=
  {| storePersistentVolumeClaimsNamespacer_Indexer :=
       StoreToPersistentVolumeClaimLister_Indexer s;
     storePersistentVolumeClaimsNamespacer_namespace := namespace |}.

Definition storePersistentVolumeClaimsNamespacer_List
    (s : storePersistentVolumeClaimsNamespacer) (selector : labels.Selector)
  : M (list v1kinds.PersistentVolumeClaim * option error) :=
  cache.ListAllByNamespace (storePersistentVolumeClaimsNamespacer_Indexer s)
    (storePersistentVolumeClaimsNamespacer_namespace s) selector
    (λ m ret, x ← assert_PersistentVolumeClaim m; mret (ret ++ [x])%list) [].

Definition storePersistentVolumeClaimsNamespacer_Get
    (s : storePersistentVolumeClaimsNamespacer) (name : string)
  : M (option v1kinds.PersistentVolumeClaim * option error) :=
  '(obj, exists_, err) ←
    cache.call_GetByKey (storePersistentVolumeClaimsNamespacer_Indexer s)
      (storePersistentVolumeClaimsNamespacer_namespace s +:+ "/" +:+ name);
  match err with
  | Some e => mret (None, Some e)
  | None =>
      if negb exists_
      then mret (None, Some (NewNotFound "persistentvolumeclaims" name))
      else x ← assert_value assert_PersistentVolumeClaim obj; mret (Some x, None)
  end.

(** *** Namespaces (source lines 329-351) *)

Record IndexerToNamespaceLister := { IndexerToNamespaceLister_Indexer : cache.Indexer }.

Definition IndexerToNamespaceLister_List (i : IndexerToNamespaceLister)
    (selector : labels.Selector) : M (list v1kinds.Namespace * option error) :=
  cache.ListAll (IndexerToNamespaceLister_Indexer i) selector
    (λ m ret, x ← assert_Namespace m; mret (ret ++ [x])%list) [].

Definition IndexerToNamespaceLister_Get (i : IndexerToNamespaceLister) (name : string)
  : M (option v1kinds.Namespace * option error) :=
  '(obj, exists_, err) ←
    cache.call_GetByKey (IndexerToNamespaceLister_Indexer i) name;
  match err with
  | Some e => mret (None, Some e)
  | None =>
      if negb exists_
      then mret (None, Some (NewNotFound "namespace" name))
      else x ← assert_value assert_Namespace obj; mret (Some x, None)
  end.

End listers_rest.

(** ** The scenarios of the specification *)

Module scenario.

Definition meta (name namespace : string) (ls : gomap) : metav1.ObjectMeta :=
  {| metav1.Name := name; metav1.Namespace := namespace; metav1.Labels := ls |}.

Definition pod (name namespace : string) (ls : gomap) : v1.Pod :=
  {| v1.Pod_ObjectMeta := meta name namespace ls |}.

Definition service (name namespace : string) (selector : gomap) : v1.Service :=
  {| v1.Service_ObjectMeta := meta name namespace None;
     v1.Service_Spec := {| v1.ServiceSpec_Selector := selector |} |}.

Definition controller (name namespace : string) (selector : gomap)
  : v1.ReplicationController :=
  {| v1.ReplicationController_ObjectMeta := meta name namespace None;
     v1.ReplicationController_Spec :=
       {| v1.ReplicationControllerSpec_Selector := selector |} |}.

(** Services [svcA] (selector [{app: x}]), [svcB] (selector absent) and
    [svcE] (selector present without pairs); pods [p1] and the labelless
    [p0]. *)
Definition svcA : v1.Service := service "svcA" "ns1" (Some {[ "app" := "x" ]}).
Definition svcB : v1.Service := service "svcB" "ns1" None.
Definition svcE : v1.Service := service "svcE" "ns1" (Some ∅).
Definition p0 : v1.Pod := pod "p0" "ns1" None.
Definition p1 : v1.Pod := pod "p1" "ns1" (Some {[ "app" := "x" ]}).

Definition services : gmap string Object :=
  {[ "ns1/svcA" := ServiceObject svcA; "ns1/svcB" := ServiceObject svcB ]}.

Definition services' : gmap string Object :=
  <[ "ns1/svcE" := ServiceObject svcE ]> services.

(** Controller [rcA] with the empty selector and pod [p2]; controllers
    [rcY] and [rcZ] both selecting [{app: z}] and pod [p3]. *)
Definition rcA : v1.ReplicationController := controller "rcA" "ns1" (Some ∅).
Definition rcY : v1.ReplicationController :=
  controller "rcY" "ns1" (Some {[ "app" := "z" ]}).
Definition rcZ : v1.ReplicationController :=
  controller "rcZ" "ns1" (Some {[ "app" := "z" ]}).
Definition p2 : v1.Pod := pod "p2" "ns1" (Some {[ "app" := "y" ]}).
Definition p3 : v1.Pod := pod "p3" "ns1" (Some {[ "app" := "z" ]}).

Definition controllers : gmap string Object :=
  {[ "ns1/rcA" := ReplicationControllerObject rcA;
     "ns1/rcY" := ReplicationControllerObject rcY;
     "ns1/rcZ" := ReplicationControllerObject rcZ ]}.

(** A pod store, and the same store with a service put where a pod is
    expected. *)
Definition pods : gmap string Object :=
  {[ "ns1/p1" := PodObject p1; "ns2/p2" := PodObject (pod "p2" "ns2" None) ]}.

Definition mixed : gmap string Object :=
  <[ "ns1/svcA" := ServiceObject svcA ]> pods.

(** A store whose enumerations fail. *)
Definition unavailable : cache.Indexer :=
  {| cache.List := ([], Some (StoreError "unavailable"));
     cache.GetByKey := λ _, (None, false, Some (StoreError "unavailable"));
     cache.Index := λ _ _, ([], Some (StoreError "unavailable")) |}.

End scenario.

(** * Properties *)

Import listers.

(** ** Vocabulary of the statements *)

(** The kind of a stored value, read without asserting it. *)
Definition as_Pod (o : Object) : option v1.Pod :=
  match o with PodObject p => Some p | _ => None end.

Definition as_Service (o : Object) : option v1.Service :=
  match o with ServiceObject s => Some s | _ => None end.

Definition as_ReplicationController (o : Object) : option v1.ReplicationController :=
  match o with ReplicationControllerObject rc => Some rc | _ => None end.

(** A declared label mapping [g] selects the labels [ls] when every pair of
    [g] is a pair of [ls]. *)
Definition selects (g : gmap string string) (ls : gomap) : Prop :=
  ∀ k v, g !! k = Some v → map_get ls k = Some v.

(** The object [o] is stored, under some key, in the store state [m]. *)
Definition stored (m : gmap string Object) (o : Object) : Prop :=
  ∃ k, m !! k = Some o.

(** The stored objects of one namespace, in the order of the snapshot. *)
Definition in_namespace (m : gmap string Object) (ns : string) : list Object :=
  filter (λ o, metav1.Namespace (Accessor o) = ns) (map_to_list m).*2.

(** The namespace-only probe of the namespace-scoped listing. *)
Abbreviation namespaceProbe ns :=
  (MetaObject {| metav1.Name := ""; metav1.Namespace := ns; metav1.Labels := None |}).

(** The namespace [ns] of the store state [m] holds only values of the
    kind recognised by [proj] (the lister's expected kind). *)
Definition namespace_of_kind {T : Type} (proj : Object → option T)
    (m : gmap string Object) (ns : string) : Prop :=
  map_Forall (λ _ o, metav1.Namespace (Accessor o) = ns → is_Some (proj o)) m.

(** The whole store state holds only values of the kind recognised by
    [proj]: "the Stores must contain only the expected type" (line 33). *)
Definition store_of_kind {T : Type} (proj : Object → option T)
    (m : gmap string Object) : Prop :=
  map_Forall (λ _ o, is_Some (proj o)) m.

#[global] Instance namespace_of_kind_dec {T : Type} (proj : Object → option T) m ns :
  Decision (namespace_of_kind proj m ns).
Proof. unfold namespace_of_kind. apply _. Defined.

#[global] Instance store_of_kind_dec {T : Type} (proj : Object → option T) m :
  Decision (store_of_kind proj m).
Proof. unfold store_of_kind. apply _. Defined.

(** A stored controller of the pod's namespace owns the pod when its
    selector field is present, has at least one pair and selects the pod's
    labels. *)
Definition owning (m : gmap string Object) (pod : v1.Pod)
    (rc : v1.ReplicationController) : Prop :=
  stored m (ReplicationControllerObject rc)
  ∧ metav1.Namespace (v1.ReplicationController_ObjectMeta rc)
    = metav1.Namespace (v1.Pod_ObjectMeta pod)
  ∧ ∃ g, v1.ReplicationControllerSpec_Selector (v1.ReplicationController_Spec rc)
         = Some g
         ∧ g ≠ ∅ ∧ selects g (metav1.Labels (v1.Pod_ObjectMeta pod)).

(** Two calls in a row, as one computation. *)
Definition twice {A : Type} (c : M A) : M (A * A) :=
  r1 ← c; r2 ← c; mret (r1, r2).

(** The listers over a store state. *)
Definition podLister (m : gmap string Object) : StoreToPodLister :=
  {| StoreToPodLister_Indexer := cache.newIndexer m |}.

Definition serviceLister (m : gmap string Object) : StoreToServiceLister :=
  {| StoreToServiceLister_Indexer := cache.newIndexer m |}.

Definition rcLister (m : gmap string Object) : StoreToReplicationControllerLister :=
  {| StoreToReplicationControllerLister_Indexer := cache.newIndexer m |}.

(** The label test of the listing helpers and the two tests of the
    resolvers, as predicates on candidates. *)
Definition labelled (selector : labels.Selector) (o : Object) : Prop :=
  labels.Matches selector (metav1.Labels (Accessor o)).

Definition service_selects (pod : v1.Pod) (svc : v1.Service) : Prop :=
  match v1.ServiceSpec_Selector (v1.Service_Spec svc) with
  | None => False
  | Some g =>
      labels.Matches (labels.AsSelectorPreValidated (Some g))
        (metav1.Labels (v1.Pod_ObjectMeta pod))
  end.

Definition controller_owns (pod : v1.Pod) (rc : v1.ReplicationController) : Prop :=
  let selector :=
    labels.AsSelectorPreValidated
      (v1.ReplicationControllerSpec_Selector (v1.ReplicationController_Spec rc)) in
  labels.Empty selector = false
  ∧ labels.Matches selector (metav1.Labels (v1.Pod_ObjectMeta pod)).

#[global] Instance labelled_dec selector o : Decision (labelled selector o).
Proof. unfold labelled. apply _. Defined.

#[global] Instance service_selects_dec pod svc : Decision (service_selects pod svc).
Proof. unfold service_selects. destruct (v1.ServiceSpec_Selector _); apply _. Defined.

#[global] Instance controller_owns_dec pod rc : Decision (controller_owns pod rc).
Proof. unfold controller_owns. apply _. Defined.

(** ** Selectors *)

Section selectors.

Lemma Matches_everything (ls : gomap) : labels.Matches labels.Everything ls = true.
Proof. reflexivity. Qed.

(** The derived selector matches exactly the label mappings that contain
    every declared pair. *)
Lemma Matches_derived (g : gmap string string) (ls : gomap) :
  labels.Matches (labels.AsSelectorPreValidated (Some g)) ls = true ↔ selects g ls.
Proof.
  unfold labels.Matches, labels.AsSelectorPreValidated, selects.
  rewrite forallb_forall. split.
  - intros H k v Hkv.
    specialize (H {| labels.key := k; labels.value := v |}).
    unfold labels.Requirement_Matches in H. cbn in H.
    rewrite bool_decide_eq_true in H. apply H.
    apply list_elem_of_In, list_elem_of_fmap.
    exists (k, v). split; [done|]. by apply elem_of_map_to_list.
  - intros H r Hr.
    apply list_elem_of_In, list_elem_of_fmap in Hr as [[k v] [-> Hkv]].
    apply elem_of_map_to_list in Hkv.
    unfold labels.Requirement_Matches. cbn.
    rewrite bool_decide_eq_true. by apply H.
Qed.

(** The derived selector is empty exactly for the nil mapping and for the
    mapping without pairs. *)
Lemma Empty_derived (sel : gomap) :
  labels.Empty (labels.AsSelectorPreValidated sel) = true ↔ map_len sel = 0.
Proof.
  destruct sel as [g|]; cbn; [|done].
  split.
  - intros H. destruct (map_to_list g) as [|kv l] eqn:E; [|done].
    apply map_to_list_empty_iff in E. subst g. apply map_size_empty.
  - intros H. apply map_size_empty_inv in H. subst g.
    by rewrite map_to_list_empty.
Qed.

End selectors.

(** ** The monad *)

Ltac msimpl := unfold mbind, M_bind, mret, M_ret, panic; cbn.

Lemma result_of_Returns {A : Type} (t : list access) (a : A) :
  result_of (t, Returns a) = Some a.
Proof. reflexivity. Qed.

Lemma result_of_Some {A : Type} (c : M A) (a : A) :
  result_of c = Some a → c = (trace_of c, Returns a).
Proof.
  destruct c as [t [b|]]; unfold result_of, trace_of; cbn; [|done].
  by intros [= ->].
Qed.

(** ** The store *)

Lemma elem_of_values (m : gmap string Object) (o : Object) :
  o ∈ (map_to_list m).*2 ↔ stored m o.
Proof.
  unfold stored. rewrite list_elem_of_fmap. split.
  - intros [[k o'] [-> Hin]]. exists k. by apply elem_of_map_to_list.
  - intros [k Hk]. exists (k, o). split; [done|]. by apply elem_of_map_to_list.
Qed.

(** ** The listing loop with an asserting callback *)

Section typed_listing.

Context {T : Type} (assert_T : Object → M T) (proj : Object → option T).
Hypothesis assert_proj :
  ∀ m, assert_T m = match proj m with Some x => mret x | None => panic end.

Variable selector : labels.Selector.

Lemma appendMatching_returns (items : list Object) (ret : list T) :
  Forall (λ o, labelled selector o → is_Some (proj o)) items →
  cache.appendMatching selector
    (λ m ret, x ← assert_T m; mret (ret ++ [x])%list) items ret
  = ([], Returns (ret ++ omap proj (filter (labelled selector) items))%list).
Proof.
  revert ret. induction items as [|o items IH]; intros ret Hall.
  - cbn. by rewrite app_nil_r.
  - apply Forall_cons in Hall as [Ho Hall].
    cbn [cache.appendMatching].
    destruct (labels.Matches selector (metav1.Labels (Accessor o))) eqn:E.
    + assert (labelled selector o) as Hl by (unfold labelled; by rewrite E).
      destruct (Ho Hl) as [x Hx].
      rewrite filter_cons_True by done.
      rewrite assert_proj. cbn [omap list_omap]. rewrite Hx. msimpl.
      rewrite (IH _ Hall). do 2 f_equal. symmetry.
      by rewrite cons_middle, (assoc_L (++)%list).
    + assert (¬ labelled selector o) as Hl by (unfold labelled; by apply Is_true_false_2).
      rewrite filter_cons_False by done. by apply IH.
Qed.

Lemma appendMatching_panics (items : list Object) (ret : list T) :
  Exists (λ o, labelled selector o ∧ proj o = None) items →
  cache.appendMatching selector
    (λ m ret, x ← assert_T m; mret (ret ++ [x])%list) items ret
  = ([], Panics).
Proof.
  revert ret. induction items as [|o items IH]; intros ret Hex.
  - by apply Exists_nil in Hex.
  - cbn [cache.appendMatching].
    destruct (labels.Matches selector (metav1.Labels (Accessor o))) eqn:E.
    + rewrite assert_proj. destruct (proj o) as [x|] eqn:Hx; msimpl; [|done].
      apply Exists_cons in Hex as [[_ Hnone]|Hex]; [congruence|].
      by rewrite (IH _ Hex).
    + apply Exists_cons in Hex as [[Hl _]|Hex]; [|by apply IH].
      unfold labelled in Hl. by rewrite E in Hl.
Qed.

End typed_listing.

Lemma assert_Pod_proj (m : Object) :
  assert_Pod m = match as_Pod m with Some x => mret x | None => panic end.
Proof. by destruct m. Qed.

Lemma assert_Service_proj (m : Object) :
  assert_Service m = match as_Service m with Some x => mret x | None => panic end.
Proof. by destruct m. Qed.

Lemma assert_ReplicationController_proj (m : Object) :
  assert_ReplicationController m
  = match as_ReplicationController m with Some x => mret x | None => panic end.
Proof. by destruct m. Qed.

Lemma labelled_everything (o : Object) : labelled labels.Everything o.
Proof. done. Qed.

Lemma filter_everything (items : list Object) :
  filter (labelled labels.Everything) items = items.
Proof.
  induction items as [|o items IH]; [done|].
  rewrite filter_cons_True by apply labelled_everything. by rewrite IH.
Qed.

(** ** The loops of the two resolvers *)

Lemma GetPodServices_fold (pod : v1.Pod) (l acc : list v1.Service) :
  foldl (GetPodServices_step pod) acc l
  = (acc ++ filter (service_selects pod) l)%list.
Proof.
  revert acc. induction l as [|svc l IH]; intros acc.
  - cbn. by rewrite app_nil_r.
  - cbn [foldl]. rewrite IH. unfold GetPodServices_step.
    destruct (v1.ServiceSpec_Selector (v1.Service_Spec svc)) as [g|] eqn:Hsel.
    + destruct (labels.Matches _ _) eqn:E.
      * rewrite filter_cons_True.
        { by rewrite <- (assoc_L (++)%list). }
        unfold service_selects. rewrite Hsel. by apply Is_true_true_2.
      * rewrite filter_cons_False; [done|].
        unfold service_selects. rewrite Hsel. by apply Is_true_false_2.
    + rewrite filter_cons_False; [done|].
      unfold service_selects. rewrite Hsel. tauto.
Qed.

Lemma controller_owns_test (pod : v1.Pod) (rc : v1.ReplicationController) :
  let selector :=
    labels.AsSelectorPreValidated
      (v1.ReplicationControllerSpec_Selector (v1.ReplicationController_Spec rc)) in
  labels.Empty selector
  || negb (labels.Matches selector (metav1.Labels (v1.Pod_ObjectMeta pod))) = false
  ↔ controller_owns pod rc.
Proof.
  unfold controller_owns. cbn zeta.
  destruct (labels.Empty _), (labels.Matches _ _); cbn; intuition congruence.
Qed.

Lemma GetPodControllers_loop_returns (pod : v1.Pod) (items : list Object)
    (acc : list v1.ReplicationController) :
  Forall (λ o, is_Some (as_ReplicationController o)) items →
  GetPodControllers_loop pod items acc
  = ([], Returns (acc ++ filter (controller_owns pod)
                          (omap as_ReplicationController items))%list).
Proof.
  revert acc. induction items as [|o items IH]; intros acc Hall.
  - cbn. by rewrite app_nil_r.
  - apply Forall_cons in Hall as [[rc Hrc] Hall].
    cbn [GetPodControllers_loop omap list_omap].
    rewrite assert_ReplicationController_proj, Hrc.
    unfold mbind, M_bind, mret, M_ret. cbn beta iota zeta.
    destruct (labels.Empty _ || negb (labels.Matches _ _)) eqn:E.
    + rewrite (IH _ Hall). rewrite filter_cons_False; [done|].
      rewrite <- controller_owns_test. cbn zeta. by rewrite E.
    + rewrite (IH _ Hall). rewrite filter_cons_True.
      { by rewrite <- (assoc_L (++)%list). }
      by apply controller_owns_test.
Qed.

Lemma GetPodControllers_loop_panics (pod : v1.Pod) (items : list Object)
    (acc : list v1.ReplicationController) :
  Exists (λ o, as_ReplicationController o = None) items →
  GetPodControllers_loop pod items acc = ([], Panics).
Proof.
  revert acc. induction items as [|o items IH]; intros acc Hex.
  - by apply Exists_nil in Hex.
  - cbn [GetPodControllers_loop]. rewrite assert_ReplicationController_proj.
    destruct (as_ReplicationController o) as [rc|] eqn:Hrc; msimpl; [|done].
    apply Exists_cons in Hex as [Hnone|Hex]; [congruence|].
    destruct (labels.Empty _ || negb (labels.Matches _ _)); by rewrite (IH _ Hex).
Qed.

(** Whatever the items are, the loop returns only candidates it was given
    at the start or that pass both tests. *)
Lemma GetPodControllers_loop_sound (pod : v1.Pod) (items : list Object)
    (acc res : list v1.ReplicationController) (t : list access) :
  GetPodControllers_loop pod items acc = (t, Returns res) →
  ∀ rc, rc ∈ res →
    rc ∈ acc ∨ (ReplicationControllerObject rc ∈ items ∧ controller_owns pod rc).
Proof.
  intros Hrun rc Hin.
  destruct (decide (Forall (λ o, is_Some (as_ReplicationController o)) items))
    as [Hall|Hnot].
  - rewrite (GetPodControllers_loop_returns _ _ _ Hall) in Hrun.
    injection Hrun as <- <-.
    apply elem_of_app in Hin as [Hin|Hin]; [by left|right].
    apply list_elem_of_filter in Hin as [Hown Hin].
    apply list_elem_of_omap in Hin as [o [Hin Ho]].
    destruct o; try discriminate. cbn in Ho. by injection Ho as ->.
  - apply not_Forall_Exists in Hnot; [|apply _].
    rewrite GetPodControllers_loop_panics in Hrun; [done|].
    eapply Exists_impl; [exact Hnot|]. cbn. intros o Ho.
    destruct (as_ReplicationController o); [|done]. destruct Ho. by eexists.
Qed.

(** ** The listing helpers with an asserting callback *)

Section typed_listers.

Context {T : Type} (assert_T : Object → M T) (proj : Object → option T).
Hypothesis assert_proj :
  ∀ m, assert_T m = match proj m with Some x => mret x | None => panic end.

Variables (ix : cache.Indexer) (selector : labels.Selector).

Local Abbreviation appendFn :=
  (λ (m : Object) (ret : list T), x ← assert_T m; mret (ret ++ [x])%list).

Lemma ListAll_returns (items : list Object) :
  cache.List ix = (items, None) →
  Forall (λ o, labelled selector o → is_Some (proj o)) items →
  cache.ListAll ix selector appendFn []
  = ([ListAccess], Returns (omap proj (filter (labelled selector) items), None)).
Proof.
  intros Hlist Hall. unfold cache.ListAll, cache.call_List.
  unfold mbind at 1, M_bind at 1. rewrite Hlist.
  unfold mbind at 1, M_bind at 1.
  by rewrite (appendMatching_returns assert_T proj assert_proj selector items [] Hall).
Qed.

Lemma ListAll_panics (items : list Object) :
  cache.List ix = (items, None) →
  Exists (λ o, labelled selector o ∧ proj o = None) items →
  cache.ListAll ix selector appendFn [] = ([ListAccess], Panics).
Proof.
  intros Hlist Hex. unfold cache.ListAll, cache.call_List.
  unfold mbind at 1, M_bind at 1. rewrite Hlist.
  unfold mbind at 1, M_bind at 1.
  by rewrite (appendMatching_panics assert_T proj assert_proj selector items [] Hex).
Qed.

Lemma ListAll_fails (items : list Object) (e : error) :
  cache.List ix = (items, Some e) →
  cache.ListAll ix selector appendFn [] = ([ListAccess], Returns ([], Some e)).
Proof.
  intros Hlist. unfold cache.ListAll, cache.call_List.
  unfold mbind at 1, M_bind at 1. by rewrite Hlist.
Qed.

Lemma ListAllByNamespace_returns (ns : string) (items : list Object) :
  cache.Index ix cache.NamespaceIndex (namespaceProbe ns) = (items, None) →
  Forall (λ o, labelled selector o → is_Some (proj o)) items →
  cache.ListAllByNamespace ix ns selector appendFn []
  = ([IndexAccess cache.NamespaceIndex (namespaceProbe ns)],
     Returns (omap proj (filter (labelled selector) items), None)).
Proof.
  intros Hindex Hall. unfold cache.ListAllByNamespace, cache.call_Index.
  unfold mbind at 1, M_bind at 1. rewrite Hindex.
  unfold mbind at 1, M_bind at 1.
  by rewrite (appendMatching_returns assert_T proj assert_proj selector items [] Hall).
Qed.

Lemma ListAllByNamespace_panics (ns : string) (items : list Object) :
  cache.Index ix cache.NamespaceIndex (namespaceProbe ns) = (items, None) →
  Exists (λ o, labelled selector o ∧ proj o = None) items →
  cache.ListAllByNamespace ix ns selector appendFn []
  = ([IndexAccess cache.NamespaceIndex (namespaceProbe ns)], Panics).
Proof.
  intros Hindex Hex. unfold cache.ListAllByNamespace, cache.call_Index.
  unfold mbind at 1, M_bind at 1. rewrite Hindex.
  unfold mbind at 1, M_bind at 1.
  by rewrite (appendMatching_panics assert_T proj assert_proj selector items [] Hex).
Qed.

Lemma ListAllByNamespace_fails (ns : string) (items : list Object) (e : error) :
  cache.Index ix cache.NamespaceIndex (namespaceProbe ns) = (items, Some e) →
  cache.ListAllByNamespace ix ns selector appendFn []
  = ([IndexAccess cache.NamespaceIndex (namespaceProbe ns)], Returns ([], Some e)).
Proof.
  intros Hindex. unfold cache.ListAllByNamespace, cache.call_Index.
  unfold mbind at 1, M_bind at 1. by rewrite Hindex.
Qed.

End typed_listers.

(** ** The store state behind [cache.newIndexer] *)

Lemma Index_newIndexer (m : gmap string Object) (probe : Object) :
  cache.Index (cache.newIndexer m) cache.NamespaceIndex probe
  = (in_namespace m (metav1.Namespace (Accessor probe)), None).
Proof. reflexivity. Qed.

Lemma elem_of_in_namespace (m : gmap string Object) (ns : string) (o : Object) :
  o ∈ in_namespace m ns ↔ stored m o ∧ metav1.Namespace (Accessor o) = ns.
Proof.
  unfold in_namespace. rewrite list_elem_of_filter, elem_of_values. tauto.
Qed.

Lemma in_namespace_of_kind {T : Type} (proj : Object → option T)
    (m : gmap string Object) (ns : string) :
  namespace_of_kind proj m ns → Forall (λ o, is_Some (proj o)) (in_namespace m ns).
Proof.
  intros Hkind. apply Forall_forall. intros o Ho.
  apply elem_of_in_namespace in Ho as [[k Hk] Hns]. by eapply Hkind.
Qed.

Lemma in_namespace_not_of_kind {T : Type} (proj : Object → option T)
    (m : gmap string Object) (ns : string) :
  ¬ namespace_of_kind proj m ns → Exists (λ o, proj o = None) (in_namespace m ns).
Proof.
  intros Hnot.
  destruct (decide (Forall (λ o, is_Some (proj o)) (in_namespace m ns)))
    as [Hall|Hex].
  - destruct Hnot. intros k o Hk Hns.
    apply (proj1 (Forall_forall _ _) Hall). apply elem_of_in_namespace.
    split; [by exists k|done].
  - apply not_Forall_Exists in Hex; [|apply _].
    eapply Exists_impl; [exact Hex|]. cbn. intros o Ho.
    by apply eq_None_not_Some.
Qed.

(** ** Kind A: the services selecting a pod *)

(** The run of [GetPodServices] when the namespace index answers with
    services only. *)
Lemma GetPodServices_run (ix : cache.Indexer) (pod : v1.Pod) (items : list Object) :
  let ns := metav1.Namespace (v1.Pod_ObjectMeta pod) in
  cache.Index ix cache.NamespaceIndex (namespaceProbe ns) = (items, None) →
  Forall (λ o, is_Some (as_Service o)) items →
  GetPodServices {| StoreToServiceLister_Indexer := ix |} pod
  = ([IndexAccess cache.NamespaceIndex (namespaceProbe ns)],
     Returns (filter (service_selects pod) (omap as_Service items), None)).
Proof.
  intros ns Hindex Hall. subst ns.
  unfold GetPodServices, GetPodServices_of_listing, storeServicesNamespacer_List,
    StoreToServiceLister_Services.
  cbn [StoreToServiceLister_Indexer storeServicesNamespacer_indexer
       storeServicesNamespacer_namespace].
  rewrite (ListAllByNamespace_returns assert_Service as_Service assert_Service_proj
             ix labels.Everything _ items Hindex).
  - unfold mbind, M_bind, mret, M_ret. cbn beta iota.
    by rewrite GetPodServices_fold, filter_everything.
  - eapply Forall_impl; [exact Hall|]. tauto.
Qed.

(** Whatever the store answers, a returned service passed the test of the
    loop. *)
Lemma GetPodServices_sound (s : StoreToServiceLister) (pod : v1.Pod)
    (services : list v1.Service) (err : option error) :
  result_of (GetPodServices s pod) = Some (services, err) →
  ∀ svc, svc ∈ services → service_selects pod svc.
Proof.
  unfold GetPodServices, GetPodServices_of_listing.
  destruct (storeServicesNamespacer_List _ _) as [t [[all [e|]]|]];
    unfold mbind, M_bind, mret, M_ret, result_of; cbn; intros [= <- <-] svc Hin.
  - by apply elem_of_nil in Hin.
  - rewrite GetPodServices_fold in Hin. cbn in Hin.
    by apply list_elem_of_filter in Hin as [Hsel _].
Qed.

Lemma service_selects_iff (pod : v1.Pod) (svc : v1.Service) :
  service_selects pod svc ↔
  ∃ g, v1.ServiceSpec_Selector (v1.Service_Spec svc) = Some g
       ∧ selects g (metav1.Labels (v1.Pod_ObjectMeta pod)).
Proof.
  unfold service_selects.
  destruct (v1.ServiceSpec_Selector (v1.Service_Spec svc)) as [g|].
  - rewrite Is_true_true, Matches_derived. split; [by exists g|].
    by intros [g' [[= <-] Hsel]].
  - split; [done|]. by intros [g [? _]].
Qed.

Lemma elem_of_omap_as_Service (svc : v1.Service) (l : list Object) :
  svc ∈ omap as_Service l ↔ ServiceObject svc ∈ l.
Proof.
  rewrite list_elem_of_omap. split.
  - intros [o [Hin Ho]]. destruct o; try discriminate. by injection Ho as ->.
  - intros Hin. by exists (ServiceObject svc).
Qed.

(** The run of [GetPodServices] over a store state whose namespace holds
    services only. *)
Lemma GetPodServices_newIndexer (m : gmap string Object) (pod : v1.Pod) :
  let ns := metav1.Namespace (v1.Pod_ObjectMeta pod) in
  namespace_of_kind as_Service m ns →
  GetPodServices (serviceLister m) pod
  = ([IndexAccess cache.NamespaceIndex (namespaceProbe ns)],
     Returns (filter (service_selects pod) (omap as_Service (in_namespace m ns)), None)).
Proof.
  intros ns Hkind. apply GetPodServices_run.
  - apply Index_newIndexer.
  - by apply in_namespace_of_kind.
Qed.

Lemma GetPodServices_run_panics (ix : cache.Indexer) (pod : v1.Pod)
    (items : list Object) :
  let ns := metav1.Namespace (v1.Pod_ObjectMeta pod) in
  cache.Index ix cache.NamespaceIndex (namespaceProbe ns) = (items, None) →
  Exists (λ o, as_Service o = None) items →
  GetPodServices {| StoreToServiceLister_Indexer := ix |} pod
  = ([IndexAccess cache.NamespaceIndex (namespaceProbe ns)], Panics).
Proof.
  intros ns Hindex Hex. subst ns.
  unfold GetPodServices, GetPodServices_of_listing, storeServicesNamespacer_List,
    StoreToServiceLister_Services.
  cbn [StoreToServiceLister_Indexer storeServicesNamespacer_indexer
       storeServicesNamespacer_namespace].
  rewrite (ListAllByNamespace_panics assert_Service as_Service assert_Service_proj
             ix labels.Everything _ items Hindex); [done|].
  eapply Exists_impl; [exact Hex|]. cbn. intros o Ho.
  split; [exact (labelled_everything o)|exact Ho].
Qed.

(** [GetPodServices] returns only when the namespace holds services only. *)
Lemma GetPodServices_returns_of_kind (m : gmap string Object) (pod : v1.Pod)
    (r : list v1.Service * option error) :
  result_of (GetPodServices (serviceLister m) pod) = Some r →
  namespace_of_kind as_Service m (metav1.Namespace (v1.Pod_ObjectMeta pod)).
Proof.
  intros Hres.
  destruct (decide (namespace_of_kind as_Service m
                      (metav1.Namespace (v1.Pod_ObjectMeta pod)))) as [Hk|Hk];
    [exact Hk|].
  apply in_namespace_not_of_kind in Hk. unfold serviceLister in Hres.
  rewrite (GetPodServices_run_panics (cache.newIndexer m) pod _
             (Index_newIndexer m _) Hk) in Hres.
  discriminate Hres.
Qed.

Lemma elem_of_selecting_services (m : gmap string Object) (pod : v1.Pod)
    (svc : v1.Service) :
  let ns := metav1.Namespace (v1.Pod_ObjectMeta pod) in
  svc ∈ filter (service_selects pod) (omap as_Service (in_namespace m ns)) ↔
  stored m (ServiceObject svc)
  ∧ metav1.Namespace (v1.Service_ObjectMeta svc) = ns
  ∧ ∃ g, v1.ServiceSpec_Selector (v1.Service_Spec svc) = Some g
         ∧ selects g (metav1.Labels (v1.Pod_ObjectMeta pod)).
Proof.
  intros ns.
  rewrite list_elem_of_filter, elem_of_omap_as_Service, elem_of_in_namespace,
    service_selects_iff.
  cbn. tauto.
Qed.

(** C1. For every pod and every store state: when the pod's namespace
    holds services, [GetPodServices] returns; and whatever it returns comes
    without error and is exactly the list of the stored services of the
    pod's namespace whose selector field is present (non-nil) and whose
    selector matches the pod's labels, the empty list when no service
    qualifies. *)
Theorem GetPodServices_exactly_selecting (m : gmap string Object) (pod : v1.Pod) :
  (namespace_of_kind as_Service m (metav1.Namespace (v1.Pod_ObjectMeta pod)) →
   ∃ services,
     result_of (GetPodServices (serviceLister m) pod) = Some (services, None))
  ∧ ∀ services err,
      result_of (GetPodServices (serviceLister m) pod) = Some (services, err) →
      err = None
      ∧ (∀ svc, svc ∈ services ↔
           stored m (ServiceObject svc)
           ∧ metav1.Namespace (v1.Service_ObjectMeta svc)
             = metav1.Namespace (v1.Pod_ObjectMeta pod)
           ∧ ∃ g, v1.ServiceSpec_Selector (v1.Service_Spec svc) = Some g
                  ∧ selects g (metav1.Labels (v1.Pod_ObjectMeta pod)))
      ∧ ((∀ svc g, stored m (ServiceObject svc) →
            metav1.Namespace (v1.Service_ObjectMeta svc)
            = metav1.Namespace (v1.Pod_ObjectMeta pod) →
            v1.ServiceSpec_Selector (v1.Service_Spec svc) = Some g →
            ¬ selects g (metav1.Labels (v1.Pod_ObjectMeta pod)))
         → services = []).
Proof.
  split.
  - intros Hkind. eexists. by rewrite (GetPodServices_newIndexer m pod Hkind).
  - intros services err Hres.
    pose proof (GetPodServices_returns_of_kind m pod _ Hres) as Hkind.
    rewrite (GetPodServices_newIndexer m pod Hkind) in Hres.
    injection Hres as <- <-. split; [done|]. split.
    + intros svc. apply elem_of_selecting_services.
    + intros Hnone. apply elem_of_nil_inv. intros svc Hin.
      apply elem_of_selecting_services in Hin as (Hst & Hns & g & Hg & Hsel).
      by eapply Hnone.
Qed.

Lemma GetPodServices_exactly_selecting_witness :
  namespace_of_kind as_Service scenario.services "ns1"
  ∧ ∃ services,
      result_of (GetPodServices (serviceLister scenario.services) scenario.p1)
      = Some (services, None)
      ∧ scenario.svcA ∈ services ∧ scenario.svcB ∉ services.
Proof.
  assert (namespace_of_kind as_Service scenario.services "ns1") as Hkind
    by (apply (bool_decide_unpack _); vm_compute; exact I).
  split; [exact Hkind|].
  destruct (GetPodServices_exactly_selecting scenario.services scenario.p1)
    as [Hreturns Hexact].
  destruct (Hreturns Hkind) as [services Hres].
  destruct (Hexact services None Hres) as (_ & Hiff & _).
  exists services. split; [exact Hres|]. split.
  - apply Hiff. split; [by exists "ns1/svcA"|]. split; [done|].
    eexists. split; [reflexivity|]. by intros k v Hkv.
  - intros Hin. apply Hiff in Hin as (_ & _ & g & Hg & _). discriminate Hg.
Defined.

(** C5. A service candidate whose selector field is absent (nil) is never
    part of what [GetPodServices] returns, whatever the store answers and
    whatever the labels of the pod. *)
Theorem GetPodServices_skips_nil_selector (s : StoreToServiceLister) (pod : v1.Pod)
    (svc : v1.Service) (services : list v1.Service) (err : option error) :
  v1.ServiceSpec_Selector (v1.Service_Spec svc) = None →
  result_of (GetPodServices s pod) = Some (services, err) →
  svc ∉ services.
Proof.
  intros Hnil Hres Hin.
  apply (GetPodServices_sound s pod services err Hres) in Hin.
  unfold service_selects in Hin. by rewrite Hnil in Hin.
Qed.

Lemma GetPodServices_skips_nil_selector_witness :
  v1.ServiceSpec_Selector (v1.Service_Spec scenario.svcB) = None
  ∧ result_of (GetPodServices (serviceLister scenario.services) scenario.p1)
    = Some ([scenario.svcA], None)
  ∧ scenario.svcB ∉ [scenario.svcA].
Proof.
  split; [reflexivity|]. split; [reflexivity|].
  apply (GetPodServices_skips_nil_selector
           (serviceLister scenario.services) scenario.p1 scenario.svcB
           [scenario.svcA] None); reflexivity.
Defined.

(** C6. A stored service of the pod's namespace whose selector field is
    present but has no pair is part of whatever [GetPodServices] returns,
    for every pod, a pod without labels included: the selector derived from
    it has zero requirements and matches every label mapping.  And
    [GetPodServices] does return when the namespace holds services. *)
Theorem GetPodServices_includes_empty_selector (m : gmap string Object)
    (pod : v1.Pod) (svc : v1.Service) :
  stored m (ServiceObject svc) →
  metav1.Namespace (v1.Service_ObjectMeta svc)
  = metav1.Namespace (v1.Pod_ObjectMeta pod) →
  v1.ServiceSpec_Selector (v1.Service_Spec svc) = Some ∅ →
  (namespace_of_kind as_Service m (metav1.Namespace (v1.Pod_ObjectMeta pod)) →
   ∃ services,
     result_of (GetPodServices (serviceLister m) pod) = Some (services, None))
  ∧ ∀ services err,
      result_of (GetPodServices (serviceLister m) pod) = Some (services, err) →
      svc ∈ services.
Proof.
  intros Hst Hns Hsel. split.
  - intros Hkind. eexists. by rewrite (GetPodServices_newIndexer m pod Hkind).
  - intros services err Hres.
    pose proof (GetPodServices_returns_of_kind m pod _ Hres) as Hkind.
    rewrite (GetPodServices_newIndexer m pod Hkind) in Hres.
    injection Hres as <- <-.
    apply elem_of_selecting_services. split; [done|]. split; [done|].
    exists ∅. split; [done|]. intros k v Hkv. by rewrite lookup_empty in Hkv.
Qed.

Lemma GetPodServices_includes_empty_selector_witness :
  namespace_of_kind as_Service scenario.services' "ns1"
  ∧ stored scenario.services' (ServiceObject scenario.svcE)
  ∧ ∃ services,
      result_of (GetPodServices (serviceLister scenario.services') scenario.p0)
      = Some (services, None)
      ∧ scenario.svcE ∈ services.
Proof.
  assert (namespace_of_kind as_Service scenario.services' "ns1") as Hkind
    by (apply (bool_decide_unpack _); vm_compute; exact I).
  assert (stored scenario.services' (ServiceObject scenario.svcE)) as Hst
    by (by exists "ns1/svcE").
  split; [exact Hkind|]. split; [exact Hst|].
  destruct (GetPodServices_includes_empty_selector
              scenario.services' scenario.p0 scenario.svcE Hst eq_refl eq_refl)
    as [Hreturns Hin].
  destruct (Hreturns Hkind) as [services Hres].
  exists services. split; [exact Hres|]. by eapply Hin.
Defined.

(** ** Kind B: the controllers owning a pod *)

Lemma elem_of_omap_as_ReplicationController (rc : v1.ReplicationController)
    (l : list Object) :
  rc ∈ omap as_ReplicationController l ↔ ReplicationControllerObject rc ∈ l.
Proof.
  rewrite list_elem_of_omap. split.
  - intros [o [Hin Ho]]. destruct o; try discriminate. by injection Ho as ->.
  - intros Hin. by exists (ReplicationControllerObject rc).
Qed.

(** The run of [GetPodControllers] for a labelled pod when the namespace
    index answers with controllers only. *)
Lemma GetPodControllers_run (ix : cache.Indexer) (pod : v1.Pod) (items : list Object) :
  map_len (metav1.Labels (v1.Pod_ObjectMeta pod)) ≠ 0 →
  cache.Index ix cache.NamespaceIndex (probeKey pod) = (items, None) →
  Forall (λ o, is_Some (as_ReplicationController o)) items →
  GetPodControllers {| StoreToReplicationControllerLister_Indexer := ix |} pod
  = ([IndexAccess cache.NamespaceIndex (probeKey pod)],
     Returns
       (let controllers :=
          filter (controller_owns pod) (omap as_ReplicationController items) in
        match controllers with
        | [] => ([], Some (errNoController pod))
        | _ :: _ => (controllers, None)
        end)).
Proof.
  intros Hlabels Hindex Hall. unfold GetPodControllers, cache.call_Index.
  apply Nat.eqb_neq in Hlabels. rewrite Hlabels.
  cbn [StoreToReplicationControllerLister_Indexer].
  unfold mbind at 1, M_bind at 1. rewrite Hindex.
  unfold mbind at 1, M_bind at 1.
  rewrite (GetPodControllers_loop_returns pod items [] Hall).
  cbn [app]. cbn zeta.
  by destruct (filter (controller_owns pod) (omap as_ReplicationController items)).
Qed.

Lemma controller_owns_iff (pod : v1.Pod) (rc : v1.ReplicationController) :
  controller_owns pod rc ↔
  ∃ g, v1.ReplicationControllerSpec_Selector (v1.ReplicationController_Spec rc)
       = Some g
       ∧ g ≠ ∅ ∧ selects g (metav1.Labels (v1.Pod_ObjectMeta pod)).
Proof.
  unfold controller_owns. cbn zeta.
  destruct (v1.ReplicationControllerSpec_Selector _) as [g|].
  - rewrite Is_true_true, Matches_derived, <- not_true_iff_false, Empty_derived.
    cbn [map_len]. rewrite map_size_empty_iff. split.
    + intros [Hne Hsel]. by exists g.
    + by intros [g' [[= <-] [Hne Hsel]]].
  - cbn. split; [by intros [[=] _]|]. by intros [g [[=] _]].
Qed.

Lemma elem_of_owning_controllers (m : gmap string Object) (pod : v1.Pod)
    (rc : v1.ReplicationController) :
  rc ∈ filter (controller_owns pod)
         (omap as_ReplicationController
            (in_namespace m (metav1.Namespace (v1.Pod_ObjectMeta pod))))
  ↔ owning m pod rc.
Proof.
  unfold owning.
  rewrite list_elem_of_filter, elem_of_omap_as_ReplicationController,
    elem_of_in_namespace, controller_owns_iff.
  cbn. tauto.
Qed.

(** The run of [GetPodControllers] for a labelled pod over a store state
    whose namespace holds controllers only. *)
Lemma GetPodControllers_newIndexer (m : gmap string Object) (pod : v1.Pod) :
  let ns := metav1.Namespace (v1.Pod_ObjectMeta pod) in
  map_len (metav1.Labels (v1.Pod_ObjectMeta pod)) ≠ 0 →
  namespace_of_kind as_ReplicationController m ns →
  result_of (GetPodControllers (rcLister m) pod)
  = Some
      (let controllers :=
         filter (controller_owns pod)
           (omap as_ReplicationController (in_namespace m ns)) in
       match controllers with
       | [] => ([], Some (errNoController pod))
       | _ :: _ => (controllers, None)
       end).
Proof.
  intros ns Hlabels Hkind. unfold rcLister.
  rewrite (GetPodControllers_run (cache.newIndexer m) pod (in_namespace m ns)).
  - reflexivity.
  - exact Hlabels.
  - apply Index_newIndexer.
  - by apply in_namespace_of_kind.
Qed.

Lemma GetPodControllers_run_panics (ix : cache.Indexer) (pod : v1.Pod)
    (items : list Object) :
  map_len (metav1.Labels (v1.Pod_ObjectMeta pod)) ≠ 0 →
  cache.Index ix cache.NamespaceIndex (probeKey pod) = (items, None) →
  Exists (λ o, as_ReplicationController o = None) items →
  GetPodControllers {| StoreToReplicationControllerLister_Indexer := ix |} pod
  = ([IndexAccess cache.NamespaceIndex (probeKey pod)], Panics).
Proof.
  intros Hlabels Hindex Hex. unfold GetPodControllers, cache.call_Index.
  apply Nat.eqb_neq in Hlabels. rewrite Hlabels.
  cbn [StoreToReplicationControllerLister_Indexer].
  unfold mbind at 1, M_bind at 1. rewrite Hindex.
  unfold mbind at 1, M_bind at 1.
  by rewrite (GetPodControllers_loop_panics pod items [] Hex).
Qed.

(** For a labelled pod, [GetPodControllers] returns only when the
    namespace holds controllers only. *)
Lemma GetPodControllers_returns_of_kind (m : gmap string Object) (pod : v1.Pod)
    (r : list v1.ReplicationController * option error) :
  map_len (metav1.Labels (v1.Pod_ObjectMeta pod)) ≠ 0 →
  result_of (GetPodControllers (rcLister m) pod) = Some r →
  namespace_of_kind as_ReplicationController m
    (metav1.Namespace (v1.Pod_ObjectMeta pod)).
Proof.
  intros Hlabels Hres.
  destruct (decide (namespace_of_kind as_ReplicationController m
                      (metav1.Namespace (v1.Pod_ObjectMeta pod)))) as [Hk|Hk];
    [exact Hk|].
  apply in_namespace_not_of_kind in Hk. unfold rcLister in Hres.
  rewrite (GetPodControllers_run_panics (cache.newIndexer m) pod _ Hlabels
             (Index_newIndexer m _) Hk) in Hres.
  discriminate Hres.
Qed.

(** Whatever the store answers, a returned controller passed both tests of
    the loop. *)
Lemma GetPodControllers_sound (s : StoreToReplicationControllerLister) (pod : v1.Pod)
    (controllers : list v1.ReplicationController) (err : option error) :
  result_of (GetPodControllers s pod) = Some (controllers, err) →
  ∀ rc, rc ∈ controllers → controller_owns pod rc.
Proof.
  unfold GetPodControllers, cache.call_Index.
  destruct (Nat.eqb _ 0).
  { intros [= <- <-] rc Hin. by apply elem_of_nil in Hin. }
  unfold mbind at 1, M_bind at 1.
  destruct (cache.Index _ _ _) as [items [e|]].
  { intros [= <- <-] rc Hin. by apply elem_of_nil in Hin. }
  unfold mbind at 1, M_bind at 1.
  destruct (GetPodControllers_loop pod items []) as [t [res|]] eqn:Hloop;
    [|by intros [=]].
  intros Hres rc Hin.
  assert (controllers = res) as ->.
  { destruct (Nat.eqb (length res) 0); by injection Hres as <- <-. }
  destruct (GetPodControllers_loop_sound pod items [] res t Hloop rc Hin)
    as [Hnil|[_ Hown]]; [by apply elem_of_nil in Hnil|done].
Qed.

(** C2. For every pod with at least one label and every store state:
    when the pod's namespace holds controllers, [GetPodControllers]
    returns; and whatever it returns lists exactly the owning controllers of
    that namespace, all of them, together with the error [errNoController],
    which carries the pod's name, its namespace and its labels, if and only
    if no controller owns the pod, and with no error otherwise. *)
Theorem GetPodControllers_error_iff_no_owner (m : gmap string Object) (pod : v1.Pod) :
  map_len (metav1.Labels (v1.Pod_ObjectMeta pod)) ≠ 0 →
  (namespace_of_kind as_ReplicationController m
     (metav1.Namespace (v1.Pod_ObjectMeta pod)) →
   ∃ controllers err,
     result_of (GetPodControllers (rcLister m) pod) = Some (controllers, err))
  ∧ ∀ controllers err,
      result_of (GetPodControllers (rcLister m) pod) = Some (controllers, err) →
      (∀ rc, rc ∈ controllers ↔ owning m pod rc)
      ∧ (err = Some (errNoController pod) ↔ ∀ rc, ¬ owning m pod rc)
      ∧ (err = None ↔ ∃ rc, owning m pod rc).
Proof.
  intros Hlabels. split.
  - intros Hkind.
    pose proof (GetPodControllers_newIndexer m pod Hlabels Hkind) as Hres.
    cbn zeta in Hres.
    destruct (filter (controller_owns pod) _); eexists _, _; exact Hres.
  - intros controllers err Hrun.
    pose proof (GetPodControllers_returns_of_kind m pod _ Hlabels Hrun) as Hkind.
    pose proof (GetPodControllers_newIndexer m pod Hlabels Hkind) as Hres.
    rewrite Hrun in Hres. clear Hrun.
    pose proof (elem_of_owning_controllers m pod) as Hiff.
    cbn zeta in Hres.
    destruct (filter (controller_owns pod) _) as [|rc0 rest] eqn:Hf;
      injection Hres as -> ->.
    + assert (∀ rc, ¬ owning m pod rc) as Hnone.
      { intros rc Hown. apply Hiff in Hown. by apply elem_of_nil in Hown. }
      split; [|split].
      * intros rc. split; [by intros Hin%elem_of_nil|by intros Hown%Hnone].
      * done.
      * split; [done|]. by intros [rc Hown%Hnone].
    + assert (owning m pod rc0) as Hown0 by (apply Hiff; left).
      split; [exact Hiff|]. split.
      * split; [done|]. intros Hnone. by destruct (Hnone rc0).
      * split; [|done]. intros _. by exists rc0.
Qed.

Lemma GetPodControllers_error_iff_no_owner_witness :
  map_len (metav1.Labels (v1.Pod_ObjectMeta scenario.p3)) ≠ 0
  ∧ namespace_of_kind as_ReplicationController scenario.controllers "ns1"
  ∧ ∃ controllers,
      result_of (GetPodControllers (rcLister scenario.controllers) scenario.p3)
      = Some (controllers, None)
      ∧ scenario.rcY ∈ controllers ∧ scenario.rcZ ∈ controllers
      ∧ scenario.rcA ∉ controllers.
Proof.
  assert (map_len (metav1.Labels (v1.Pod_ObjectMeta scenario.p3)) ≠ 0) as Hlabels
    by (by vm_compute).
  assert (namespace_of_kind as_ReplicationController scenario.controllers "ns1")
    as Hkind by (apply (bool_decide_unpack _); vm_compute; exact I).
  split; [exact Hlabels|]. split; [exact Hkind|].
  destruct (GetPodControllers_error_iff_no_owner
              scenario.controllers scenario.p3 Hlabels) as [Hreturns Hexact].
  destruct (Hreturns Hkind) as (controllers & err & Hres).
  destruct (Hexact controllers err Hres) as (Hiff & _ & Hok).
  assert (({[ "app" := "z" ]} : gmap string string) ≠ ∅) as Hne
    by (apply (bool_decide_unpack _); vm_compute; exact I).
  assert (owning scenario.controllers scenario.p3 scenario.rcY) as HY.
  { split; [by exists "ns1/rcY"|]. split; [done|].
    eexists. split; [reflexivity|]. split; [exact Hne|]. by intros k v Hkv. }
  assert (owning scenario.controllers scenario.p3 scenario.rcZ) as HZ.
  { split; [by exists "ns1/rcZ"|]. split; [done|].
    eexists. split; [reflexivity|]. split; [exact Hne|]. by intros k v Hkv. }
  assert (err = None) as Herr by (apply Hok; by exists scenario.rcY).
  rewrite Herr in Hres.
  exists controllers. split; [exact Hres|].
  split; [by apply Hiff|]. split; [by apply Hiff|].
  intros Hin. apply Hiff in Hin as (_ & _ & g & Hg & Hgne & _).
  injection Hg as <-. by apply Hgne.
Defined.

(** C3. For a pod without labels (a nil or an empty label mapping),
    [GetPodControllers] reports the error [errNoLabels] together with the
    nil list, and it does so with an empty trace: the store is not
    accessed, whatever store the lister is built on. *)
Theorem GetPodControllers_no_labels (s : StoreToReplicationControllerLister)
    (pod : v1.Pod) :
  map_len (metav1.Labels (v1.Pod_ObjectMeta pod)) = 0 →
  GetPodControllers s pod = ([], Returns ([], Some (errNoLabels pod))).
Proof.
  intros Hlabels. unfold GetPodControllers. by rewrite Hlabels.
Qed.

Lemma GetPodControllers_no_labels_witness :
  map_len (metav1.Labels (v1.Pod_ObjectMeta scenario.p0)) = 0
  ∧ GetPodControllers (rcLister scenario.controllers) scenario.p0
    = ([], Returns ([], Some (errNoLabels scenario.p0)))
  ∧ GetPodControllers
      {| StoreToReplicationControllerLister_Indexer := scenario.unavailable |}
      (scenario.pod "p" "ns1" (Some ∅))
    = ([], Returns ([], Some (errNoLabels (scenario.pod "p" "ns1" (Some ∅))))).
Proof.
  split; [reflexivity|]. split.
  - by apply GetPodControllers_no_labels.
  - by apply GetPodControllers_no_labels.
Defined.

(** C4. A controller candidate whose derived selector is empty, that is
    whose selector field is nil or has no pair, is never part of what
    [GetPodControllers] returns, whatever the store answers and whatever
    the labels of the pod. *)
Theorem GetPodControllers_skips_empty_selector
    (s : StoreToReplicationControllerLister) (pod : v1.Pod)
    (rc : v1.ReplicationController)
    (controllers : list v1.ReplicationController) (err : option error) :
  map_len (v1.ReplicationControllerSpec_Selector (v1.ReplicationController_Spec rc))
  = 0 →
  result_of (GetPodControllers s pod) = Some (controllers, err) →
  labels.Empty
    (labels.AsSelectorPreValidated
       (v1.ReplicationControllerSpec_Selector (v1.ReplicationController_Spec rc)))
  = true
  ∧ rc ∉ controllers.
Proof.
  intros Hlen Hres. apply Empty_derived in Hlen. split; [exact Hlen|].
  intros Hin.
  apply (GetPodControllers_sound s pod controllers err Hres) in Hin as [Hne _].
  cbn zeta in Hne. congruence.
Qed.

Lemma GetPodControllers_skips_empty_selector_witness :
  map_len (v1.ReplicationControllerSpec_Selector
             (v1.ReplicationController_Spec scenario.rcA)) = 0
  ∧ result_of (GetPodControllers (rcLister scenario.controllers) scenario.p3)
    = Some ([scenario.rcY; scenario.rcZ], None)
  ∧ (scenario.rcA ∉ [scenario.rcY; scenario.rcZ])
  ∧ result_of
      (GetPodControllers
         (rcLister {[ "ns1/rcA" := ReplicationControllerObject scenario.rcA ]})
         scenario.p2)
    = Some ([], Some (errNoController scenario.p2)).
Proof.
  split; [reflexivity|]. split; [reflexivity|]. split; [|reflexivity].
  apply (GetPodControllers_skips_empty_selector
           (rcLister scenario.controllers) scenario.p3 scenario.rcA
           [scenario.rcY; scenario.rcZ] None); reflexivity.
Defined.

(** ** Exact-key lookup and the typed listings *)

(** The complete run of [Get], by cases on what the store lookup reports. *)
Lemma storePodsNamespacer_Get_run (ix : cache.Indexer) (ns name : string) :
  storePodsNamespacer_Get
    (StoreToPodLister_Pods {| StoreToPodLister_Indexer := ix |} ns) name
  = ([GetByKeyAccess (ns +:+ "/" +:+ name)],
     let '(obj, found, err) := cache.GetByKey ix (ns +:+ "/" +:+ name) in
     match err with
     | Some e => Returns (None, Some e)
     | None =>
         if found
         then match obj with
              | Some (PodObject p) => Returns (Some p, None)
              | _ => Panics
              end
         else Returns (None, Some (NewNotFound "pod" name))
     end).
Proof.
  unfold storePodsNamespacer_Get, cache.call_GetByKey.
  cbn [StoreToPodLister_Pods StoreToPodLister_Indexer
       storePodsNamespacer_Indexer storePodsNamespacer_namespace].
  unfold mbind at 1, M_bind at 1.
  destruct (cache.GetByKey ix _) as [[obj found] [e|]]; [done|].
  destruct found; [|done]. by destruct obj as [[]|].
Qed.

Lemma storeServicesNamespacer_Get_run (ix : cache.Indexer) (ns name : string) :
  storeServicesNamespacer_Get
    (StoreToServiceLister_Services {| StoreToServiceLister_Indexer := ix |} ns) name
  = ([GetByKeyAccess (ns +:+ "/" +:+ name)],
     let '(obj, found, err) := cache.GetByKey ix (ns +:+ "/" +:+ name) in
     match err with
     | Some e => Returns (None, Some e)
     | None =>
         if found
         then match obj with
              | Some (ServiceObject svc) => Returns (Some svc, None)
              | _ => Panics
              end
         else Returns (None, Some (NewNotFound "service" name))
     end).
Proof.
  unfold storeServicesNamespacer_Get, cache.call_GetByKey.
  cbn [StoreToServiceLister_Services StoreToServiceLister_Indexer
       storeServicesNamespacer_indexer storeServicesNamespacer_namespace].
  unfold mbind at 1, M_bind at 1.
  destruct (cache.GetByKey ix _) as [[obj found] [e|]]; [done|].
  destruct found; [|done]. by destruct obj as [[]|].
Qed.

(** C8. [Get] performs one store access, the lookup of the composite key
    [namespace + "/" + name]; when that lookup reports no error, it fails
    with [NewNotFound] of the lister's resource and of [name] if the key is
    absent, and it returns the stored object if the key is present (here
    for the pod and the service listers). *)
Theorem Get_by_composite_key (ix : cache.Indexer) (ns name : string)
    (obj : option Object) (found : bool) :
  cache.GetByKey ix (ns +:+ "/" +:+ name) = (obj, found, None) →
  trace_of (storePodsNamespacer_Get
              (StoreToPodLister_Pods {| StoreToPodLister_Indexer := ix |} ns) name)
  = [GetByKeyAccess (ns +:+ "/" +:+ name)]
  ∧ trace_of (storeServicesNamespacer_Get
                (StoreToServiceLister_Services
                   {| StoreToServiceLister_Indexer := ix |} ns) name)
    = [GetByKeyAccess (ns +:+ "/" +:+ name)]
  ∧ (found = false →
       result_of (storePodsNamespacer_Get
                    (StoreToPodLister_Pods {| StoreToPodLister_Indexer := ix |} ns)
                    name)
       = Some (None, Some (NewNotFound "pod" name))
       ∧ result_of (storeServicesNamespacer_Get
                      (StoreToServiceLister_Services
                         {| StoreToServiceLister_Indexer := ix |} ns) name)
         = Some (None, Some (NewNotFound "service" name)))
  ∧ (∀ p, found = true → obj = Some (PodObject p) →
       result_of (storePodsNamespacer_Get
                    (StoreToPodLister_Pods {| StoreToPodLister_Indexer := ix |} ns)
                    name)
       = Some (Some p, None))
  ∧ (∀ svc, found = true → obj = Some (ServiceObject svc) →
       result_of (storeServicesNamespacer_Get
                    (StoreToServiceLister_Services
                       {| StoreToServiceLister_Indexer := ix |} ns) name)
       = Some (Some svc, None)).
Proof.
  intros Hget.
  rewrite storePodsNamespacer_Get_run, storeServicesNamespacer_Get_run, Hget.
  unfold trace_of, result_of. cbn [fst snd].
  split; [done|]. split; [done|]. split; [|split].
  - by intros ->.
  - by intros p -> ->.
  - by intros svc -> ->.
Qed.

Lemma Get_by_composite_key_witness :
  cache.GetByKey (cache.newIndexer ∅) ("ns1" +:+ "/" +:+ "missing")
  = (None, false, None)
  ∧ storePodsNamespacer_Get (StoreToPodLister_Pods (podLister ∅) "ns1") "missing"
    = ([GetByKeyAccess "ns1/missing"],
       Returns (None, Some (NewNotFound "pod" "missing")))
  ∧ cache.GetByKey (cache.newIndexer scenario.pods) ("ns1" +:+ "/" +:+ "p1")
    = (Some (PodObject scenario.p1), true, None)
  ∧ storePodsNamespacer_Get (StoreToPodLister_Pods (podLister scenario.pods) "ns1") "p1"
    = ([GetByKeyAccess "ns1/p1"], Returns (Some scenario.p1, None)).
Proof.
  assert (cache.GetByKey (cache.newIndexer ∅) ("ns1" +:+ "/" +:+ "missing")
          = (None, false, None)) as Hmissing by reflexivity.
  assert (cache.GetByKey (cache.newIndexer scenario.pods) ("ns1" +:+ "/" +:+ "p1")
          = (Some (PodObject scenario.p1), true, None)) as Hp1 by reflexivity.
  destruct (Get_by_composite_key _ "ns1" "missing" _ _ Hmissing)
    as (Ht & _ & Habsent & _).
  destruct (Habsent eq_refl) as [Hr _].
  destruct (Get_by_composite_key _ "ns1" "p1" _ _ Hp1) as (Ht' & _ & _ & Hpresent & _).
  specialize (Hpresent scenario.p1 eq_refl eq_refl).
  split; [exact Hmissing|]. split.
  - apply result_of_Some in Hr. rewrite Ht in Hr. exact Hr.
  - split; [exact Hp1|].
    apply result_of_Some in Hpresent. rewrite Ht' in Hpresent. exact Hpresent.
Defined.

Lemma elem_of_omap_as_Pod (p : v1.Pod) (l : list Object) :
  p ∈ omap as_Pod l ↔ PodObject p ∈ l.
Proof.
  rewrite list_elem_of_omap. split.
  - intros [o [Hin Ho]]. destruct o; try discriminate. by injection Ho as ->.
  - intros Hin. by exists (PodObject p).
Qed.

Lemma StoreToPodLister_List_returns (ix : cache.Indexer) (selector : labels.Selector)
    (items : list Object) :
  cache.List ix = (items, None) →
  Forall (λ o, labelled selector o → is_Some (as_Pod o)) items →
  StoreToPodLister_List {| StoreToPodLister_Indexer := ix |} selector
  = ([ListAccess], Returns (omap as_Pod (filter (labelled selector) items), None)).
Proof.
  intros Hlist Hall. unfold StoreToPodLister_List.
  exact (ListAll_returns assert_Pod as_Pod assert_Pod_proj ix selector items Hlist Hall).
Qed.

Lemma StoreToPodLister_List_panics (ix : cache.Indexer) (selector : labels.Selector)
    (items : list Object) :
  cache.List ix = (items, None) →
  Exists (λ o, labelled selector o ∧ as_Pod o = None) items →
  StoreToPodLister_List {| StoreToPodLister_Indexer := ix |} selector
  = ([ListAccess], Panics).
Proof.
  intros Hlist Hex. unfold StoreToPodLister_List.
  exact (ListAll_panics assert_Pod as_Pod assert_Pod_proj ix selector items Hlist Hex).
Qed.

Lemma storePodsNamespacer_List_returns (ix : cache.Indexer) (ns : string)
    (selector : labels.Selector) (items : list Object) :
  cache.Index ix cache.NamespaceIndex (namespaceProbe ns) = (items, None) →
  Forall (λ o, labelled selector o → is_Some (as_Pod o)) items →
  storePodsNamespacer_List
    (StoreToPodLister_Pods {| StoreToPodLister_Indexer := ix |} ns) selector
  = ([IndexAccess cache.NamespaceIndex (namespaceProbe ns)],
     Returns (omap as_Pod (filter (labelled selector) items), None)).
Proof.
  intros Hindex Hall. unfold storePodsNamespacer_List.
  exact (ListAllByNamespace_returns assert_Pod as_Pod assert_Pod_proj ix selector ns
           items Hindex Hall).
Qed.

(** C7 (as the code has it). A stored value of another kind than the
    lister's makes the unchecked type assertion panic: the whole-store
    listing panics when the labels of such an entry satisfy the selector,
    it passes such entries over only when their labels do not satisfy the
    selector, and the exact-key lookup of the key of such a value panics.
    No type-mismatch error is returned. *)
Theorem other_kind_panics (ix : cache.Indexer) (selector : labels.Selector)
    (ns name : string) (items : list Object) (o : Object) :
  as_Pod o = None →
  (cache.List ix = (items, None) → o ∈ items → labelled selector o →
     StoreToPodLister_List {| StoreToPodLister_Indexer := ix |} selector
     = ([ListAccess], Panics))
  ∧ (cache.List ix = (items, None) →
     Forall (λ o', as_Pod o' = None → ¬ labelled selector o') items →
     StoreToPodLister_List {| StoreToPodLister_Indexer := ix |} selector
     = ([ListAccess],
        Returns (omap as_Pod (filter (labelled selector) items), None)))
  ∧ (cache.GetByKey ix (ns +:+ "/" +:+ name) = (Some o, true, None) →
     storePodsNamespacer_Get
       (StoreToPodLister_Pods {| StoreToPodLister_Indexer := ix |} ns) name
     = ([GetByKeyAccess (ns +:+ "/" +:+ name)], Panics)).
Proof.
  intros Hkind. split; [|split].
  - intros Hlist Hin Hl. apply (StoreToPodLister_List_panics ix selector items Hlist).
    apply Exists_exists. by exists o.
  - intros Hlist Hall. apply (StoreToPodLister_List_returns ix selector items Hlist).
    eapply Forall_impl; [exact Hall|]. cbn. intros o' Ho' Hl.
    destruct (as_Pod o') as [p|]; [by eexists|]. by destruct Ho'.
  - intros Hget. rewrite storePodsNamespacer_Get_run, Hget.
    by destruct o.
Qed.

Lemma other_kind_panics_witness :
  as_Pod (ServiceObject scenario.svcA) = None
  ∧ StoreToPodLister_List (podLister scenario.mixed) labels.Everything
    = ([ListAccess], Panics)
  ∧ StoreToPodLister_List (podLister scenario.mixed)
      [{| labels.key := "app"; labels.value := "x" |}]
    = ([ListAccess], Returns ([scenario.p1], None))
  ∧ storePodsNamespacer_Get
      (StoreToPodLister_Pods (podLister scenario.mixed) "ns1") "svcA"
    = ([GetByKeyAccess "ns1/svcA"], Panics).
Proof.
  split; [reflexivity|].
  destruct (other_kind_panics (cache.newIndexer scenario.mixed) labels.Everything
              "ns1" "svcA" (map_to_list scenario.mixed).*2
              (ServiceObject scenario.svcA) eq_refl) as (Hpanic & _ & Hget).
  split; [|split].
  - apply Hpanic; [reflexivity| |done].
    apply elem_of_values. by exists "ns1/svcA".
  - reflexivity.
  - by apply Hget.
Defined.

(** C7, refuted as stated: with a service stored where pods are expected,
    [List] does not skip the entry but panics, and [Get] of its key panics
    instead of returning an error. *)
Lemma typed_lister_crashes_on_other_kind :
  stored scenario.mixed (ServiceObject scenario.svcA)
  ∧ StoreToPodLister_List (podLister scenario.mixed) labels.Everything
    = ([ListAccess], Panics)
  ∧ storePodsNamespacer_Get
      (StoreToPodLister_Pods (podLister scenario.mixed) "ns1") "svcA"
    = ([GetByKeyAccess "ns1/svcA"], Panics).
Proof.
  split; [by exists "ns1/svcA"|]. split; reflexivity.
Qed.

(** ** Whole-store and namespace-scoped listing *)

Lemma store_of_kind_values {T : Type} (proj : Object → option T)
    (m : gmap string Object) :
  store_of_kind proj m → Forall (λ o, is_Some (proj o)) (map_to_list m).*2.
Proof.
  intros Hkind. apply Forall_forall. intros o Ho.
  apply elem_of_values in Ho as [k Hk]. by eapply Hkind.
Qed.

Lemma store_of_kind_namespace {T : Type} (proj : Object → option T)
    (m : gmap string Object) (ns : string) :
  store_of_kind proj m → namespace_of_kind proj m ns.
Proof. intros Hkind k o Hk _. by eapply Hkind. Qed.

Lemma twice_same {A : Type} (c : M A) (a : A) :
  result_of c = Some a → result_of (twice c) = Some (a, a).
Proof.
  intros Hc. apply result_of_Some in Hc. unfold twice. rewrite Hc.
  reflexivity.
Qed.

Lemma not_labelled_of_kind {T : Type} (proj : Object → option T)
    (selector : labels.Selector) (items : list Object) :
  ¬ Forall (λ o, labelled selector o → is_Some (proj o)) items →
  Exists (λ o, labelled selector o ∧ proj o = None) items.
Proof.
  intros Hnot. apply not_Forall_Exists in Hnot; [|apply _].
  eapply Exists_impl; [exact Hnot|]. cbn. intros o Ho.
  destruct (decide (labelled selector o)) as [Hl|Hl]; [|by destruct Ho].
  split; [exact Hl|]. apply eq_None_not_Some. intros Hsome. by apply Ho.
Qed.

Lemma storePodsNamespacer_List_panics (ix : cache.Indexer) (ns : string)
    (selector : labels.Selector) (items : list Object) :
  cache.Index ix cache.NamespaceIndex (namespaceProbe ns) = (items, None) →
  Exists (λ o, labelled selector o ∧ as_Pod o = None) items →
  storePodsNamespacer_List
    (StoreToPodLister_Pods {| StoreToPodLister_Indexer := ix |} ns) selector
  = ([IndexAccess cache.NamespaceIndex (namespaceProbe ns)], Panics).
Proof.
  intros Hindex Hex. unfold storePodsNamespacer_List.
  exact (ListAllByNamespace_panics assert_Pod as_Pod assert_Pod_proj ix selector ns
           items Hindex Hex).
Qed.

(** What the two pod listings return over a store state, when they return. *)
Lemma StoreToPodLister_List_newIndexer (m : gmap string Object)
    (selector : labels.Selector) (all : list v1.Pod) (e : option error) :
  result_of (StoreToPodLister_List (podLister m) selector) = Some (all, e) →
  e = None ∧ all = omap as_Pod (filter (labelled selector) (map_to_list m).*2).
Proof.
  intros Hres. unfold podLister in Hres.
  destruct (decide (Forall (λ o, labelled selector o → is_Some (as_Pod o))
                      (map_to_list m).*2)) as [Hall|Hnot].
  - rewrite (StoreToPodLister_List_returns (cache.newIndexer m) selector
               (map_to_list m).*2 eq_refl Hall) in Hres.
    by injection Hres as <- <-.
  - apply not_labelled_of_kind in Hnot.
    by rewrite (StoreToPodLister_List_panics (cache.newIndexer m) selector
                  (map_to_list m).*2 eq_refl Hnot) in Hres.
Qed.

Lemma storePodsNamespacer_List_newIndexer (m : gmap string Object) (ns : string)
    (selector : labels.Selector) (scoped : list v1.Pod) (e : option error) :
  result_of (storePodsNamespacer_List
               (StoreToPodLister_Pods (podLister m) ns) selector)
  = Some (scoped, e) →
  e = None ∧ scoped = omap as_Pod (filter (labelled selector) (in_namespace m ns)).
Proof.
  intros Hres. unfold podLister in Hres.
  destruct (decide (Forall (λ o, labelled selector o → is_Some (as_Pod o))
                      (in_namespace m ns))) as [Hall|Hnot].
  - rewrite (storePodsNamespacer_List_returns (cache.newIndexer m) ns selector
               (in_namespace m ns) eq_refl Hall) in Hres.
    by injection Hres as <- <-.
  - apply not_labelled_of_kind in Hnot.
    by rewrite (storePodsNamespacer_List_panics (cache.newIndexer m) ns selector
                  (in_namespace m ns) eq_refl Hnot) in Hres.
Qed.

Lemma elem_of_listed_pods (m : gmap string Object) (selector : labels.Selector)
    (p : v1.Pod) :
  p ∈ omap as_Pod (filter (labelled selector) (map_to_list m).*2) ↔
  stored m (PodObject p)
  ∧ labels.Matches selector (metav1.Labels (v1.Pod_ObjectMeta p)) = true.
Proof.
  rewrite elem_of_omap_as_Pod, list_elem_of_filter, elem_of_values.
  unfold labelled. cbn. rewrite Is_true_true. tauto.
Qed.

Lemma elem_of_listed_pods_in_namespace (m : gmap string Object) (ns : string)
    (selector : labels.Selector) (p : v1.Pod) :
  p ∈ omap as_Pod (filter (labelled selector) (in_namespace m ns)) ↔
  stored m (PodObject p)
  ∧ metav1.Namespace (v1.Pod_ObjectMeta p) = ns
  ∧ labels.Matches selector (metav1.Labels (v1.Pod_ObjectMeta p)) = true.
Proof.
  rewrite elem_of_omap_as_Pod, list_elem_of_filter, elem_of_in_namespace.
  unfold labelled. cbn. rewrite Is_true_true. tauto.
Qed.

(** C9. Over a fixed store state, for every namespace and selector: on a
    pod store both listings return; whatever the whole-store listing
    returns is, without error, exactly the stored pods whose labels satisfy
    the selector; whatever the namespace-scoped listing returns is, without
    error, exactly the stored pods of the namespace whose labels satisfy
    the selector, that is the part of the whole-store listing that lies in
    the namespace, hence a subset of it; and a second call of either
    listing returns what the first call returned. *)
Theorem List_namespace_restricts_all (m : gmap string Object) (ns : string)
    (selector : labels.Selector) :
  (store_of_kind as_Pod m →
   ∃ all scoped,
     result_of (StoreToPodLister_List (podLister m) selector) = Some (all, None)
     ∧ result_of (storePodsNamespacer_List
                    (StoreToPodLister_Pods (podLister m) ns) selector)
       = Some (scoped, None))
  ∧ (∀ all e,
       result_of (StoreToPodLister_List (podLister m) selector) = Some (all, e) →
       e = None
       ∧ (∀ p, p ∈ all ↔
            stored m (PodObject p)
            ∧ labels.Matches selector (metav1.Labels (v1.Pod_ObjectMeta p)) = true)
       ∧ result_of (twice (StoreToPodLister_List (podLister m) selector))
         = Some ((all, e), (all, e)))
  ∧ (∀ scoped e,
       result_of (storePodsNamespacer_List
                    (StoreToPodLister_Pods (podLister m) ns) selector)
       = Some (scoped, e) →
       e = None
       ∧ (∀ p, p ∈ scoped ↔
            stored m (PodObject p)
            ∧ metav1.Namespace (v1.Pod_ObjectMeta p) = ns
            ∧ labels.Matches selector (metav1.Labels (v1.Pod_ObjectMeta p)) = true)
       ∧ result_of (twice (storePodsNamespacer_List
                             (StoreToPodLister_Pods (podLister m) ns) selector))
         = Some ((scoped, e), (scoped, e)))
  ∧ (∀ all scoped e e',
       result_of (StoreToPodLister_List (podLister m) selector) = Some (all, e) →
       result_of (storePodsNamespacer_List
                    (StoreToPodLister_Pods (podLister m) ns) selector)
       = Some (scoped, e') →
       (∀ p, p ∈ scoped ↔ p ∈ all ∧ metav1.Namespace (v1.Pod_ObjectMeta p) = ns)
       ∧ scoped ⊆ all).
Proof.
  split; [|split; [|split]].
  - intros Hkind. eexists _, _. unfold podLister. split.
    + rewrite (StoreToPodLister_List_returns _ selector (map_to_list m).*2);
        [done|done|].
      eapply Forall_impl; [exact (store_of_kind_values as_Pod m Hkind)|].
      by intros o Ho _.
    + rewrite (storePodsNamespacer_List_returns _ ns selector (in_namespace m ns));
        [done|done|].
      eapply Forall_impl.
      * exact (in_namespace_of_kind as_Pod m ns
                 (store_of_kind_namespace _ _ _ Hkind)).
      * by intros o Ho _.
  - intros all e Hres.
    destruct (StoreToPodLister_List_newIndexer m selector all e Hres) as [-> ->].
    split; [done|]. split; [apply elem_of_listed_pods|by apply twice_same].
  - intros scoped e Hres.
    destruct (storePodsNamespacer_List_newIndexer m ns selector scoped e Hres)
      as [-> ->].
    split; [done|].
    split; [apply elem_of_listed_pods_in_namespace|by apply twice_same].
  - intros all scoped e e' Hall Hscoped.
    destruct (StoreToPodLister_List_newIndexer m selector all e Hall) as [_ ->].
    destruct (storePodsNamespacer_List_newIndexer m ns selector scoped e' Hscoped)
      as [_ ->].
    assert (∀ p, p ∈ omap as_Pod (filter (labelled selector) (in_namespace m ns)) ↔
              p ∈ omap as_Pod (filter (labelled selector) (map_to_list m).*2)
              ∧ metav1.Namespace (v1.Pod_ObjectMeta p) = ns) as Hiff.
    { intros p. rewrite elem_of_listed_pods_in_namespace, elem_of_listed_pods.
      tauto. }
    split; [exact Hiff|]. intros p Hp. by apply Hiff in Hp as [Hp _].
Qed.

Lemma List_namespace_restricts_all_witness :
  store_of_kind as_Pod scenario.pods
  ∧ ∃ all scoped,
      result_of (StoreToPodLister_List (podLister scenario.pods) labels.Everything)
      = Some (all, None)
      ∧ result_of (storePodsNamespacer_List
                     (StoreToPodLister_Pods (podLister scenario.pods) "ns1")
                     labels.Everything)
        = Some (scoped, None)
      ∧ scoped ⊆ all
      ∧ scenario.p1 ∈ scoped
      ∧ (scenario.pod "p2" "ns2" None ∈ all)
      ∧ (scenario.pod "p2" "ns2" None ∉ scoped).
Proof.
  assert (store_of_kind as_Pod scenario.pods) as Hkind
    by (apply (bool_decide_unpack _); vm_compute; exact I).
  split; [exact Hkind|].
  destruct (List_namespace_restricts_all scenario.pods "ns1" labels.Everything)
    as (Hreturn & Hin_all & Hin_scoped & Hrel).
  destruct (Hreturn Hkind) as (all & scoped & Hall & Hscoped).
  destruct (Hin_all all None Hall) as (_ & Hall_iff & _).
  destruct (Hin_scoped scoped None Hscoped) as (_ & Hscoped_iff & _).
  destruct (Hrel all scoped None None Hall Hscoped) as [_ Hsub].
  exists all, scoped. split; [exact Hall|]. split; [exact Hscoped|].
  split; [exact Hsub|]. split; [|split].
  - apply Hscoped_iff. split; [by exists "ns1/p1"|]. split; reflexivity.
  - apply Hall_iff. split; [by exists "ns2/p2"|reflexivity].
  - intros Hin. apply Hscoped_iff in Hin as (_ & Hns & _). discriminate Hns.
Defined.

(** ** Store failures *)



(** * Further properties of the resolvers *)

Lemma trace_of_bind {A B : Type} (c : M A) (f : A → M B) :
  trace_of (c ≫= f)
  = (trace_of c
     ++ match c.2 with
        | Returns a => trace_of (f a)
        | Panics => []
        end)%list.
Proof.
  destruct c as [t [a|]]; unfold mbind, M_bind, trace_of; cbn.
  - by destruct (f a).
  - by rewrite app_nil_r.
Qed.

Lemma result_of_None {A : Type} (c : M A) :
  result_of c = None → c = (trace_of c, Panics).
Proof. destruct c as [t [a|]]; unfold result_of, trace_of; cbn; by intros [=]. Qed.

(** The loop of [GetPodControllers] does not touch the store. *)
Lemma GetPodControllers_loop_trace (pod : v1.Pod) (items : list Object)
    (acc : list v1.ReplicationController) :
  trace_of (GetPodControllers_loop pod items acc) = [].
Proof.
  revert acc. induction items as [|o items IH]; intros acc; [done|].
  cbn [GetPodControllers_loop]. rewrite trace_of_bind.
  rewrite assert_ReplicationController_proj.
  destruct (as_ReplicationController o) as [rc|]; cbn; [|done].
  destruct (labels.Empty _ || negb (labels.Matches _ _)); apply IH.
Qed.

(** X1. For a pod with at least one label, [GetPodControllers] makes exactly
    one access to the store, whatever the store answers and whether or not
    the run panics: a query of the namespace index with a replication
    controller that carries the pod's namespace and nothing else.  It never
    lists the whole store and never looks a key up. *)
Theorem GetPodControllers_single_index_access
    (s : StoreToReplicationControllerLister) (pod : v1.Pod) :
  map_len (metav1.Labels (v1.Pod_ObjectMeta pod)) ≠ 0 →
  trace_of (GetPodControllers s pod)
  = [IndexAccess "namespace" (probeKey pod)]
  ∧ as_ReplicationController (probeKey pod)
    = Some {| v1.ReplicationController_ObjectMeta :=
                {| metav1.Name := "";
                   metav1.Namespace := metav1.Namespace (v1.Pod_ObjectMeta pod);
                   metav1.Labels := None |};
              v1.ReplicationController_Spec :=
                {| v1.ReplicationControllerSpec_Selector := None |} |}.
Proof.
  intros Hlabels. split; [|done].
  unfold GetPodControllers. apply Nat.eqb_neq in Hlabels. rewrite Hlabels.
  rewrite trace_of_bind. unfold cache.call_Index. cbn [trace_of fst snd].
  destruct (cache.Index _ _ _) as [items [e|]]; [done|].
  rewrite trace_of_bind, GetPodControllers_loop_trace.
  destruct (GetPodControllers_loop pod items []) as [t [res|]]; cbn; [|done].
  by destruct (Nat.eqb (length res) 0).
Qed.

Lemma GetPodControllers_single_index_access_witness :
  map_len (metav1.Labels (v1.Pod_ObjectMeta scenario.p3)) ≠ 0
  ∧ trace_of (GetPodControllers (rcLister scenario.mixed) scenario.p3)
    = [IndexAccess "namespace" (probeKey scenario.p3)]
  ∧ result_of (GetPodControllers (rcLister scenario.mixed) scenario.p3) = None.
Proof.
  assert (map_len (metav1.Labels (v1.Pod_ObjectMeta scenario.p3)) ≠ 0) as Hlabels
    by (by vm_compute).
  split; [exact Hlabels|]. split; [|reflexivity].
  by destruct (GetPodControllers_single_index_access
                 (rcLister scenario.mixed) scenario.p3 Hlabels).
Defined.

(** X2. Whenever [GetPodControllers] returns, the list is empty exactly
    when an error comes with it: a nil error means at least one controller.
    The error is the one for a pod without labels, the one for a pod without
    controller, or the error of the namespace index. *)
Theorem GetPodControllers_error_iff_empty
    (s : StoreToReplicationControllerLister) (pod : v1.Pod)
    (controllers : list v1.ReplicationController) (err : option error) :
  result_of (GetPodControllers s pod) = Some (controllers, err) →
  (err = None ↔ controllers ≠ [])
  ∧ ∀ e, err = Some e →
      (e = errNoLabels pod ∧ map_len (metav1.Labels (v1.Pod_ObjectMeta pod)) = 0)
      ∨ e = errNoController pod
      ∨ ∃ items,
          cache.Index (StoreToReplicationControllerLister_Indexer s)
            cache.NamespaceIndex (probeKey pod)
          = (items, Some e).
Proof.
  unfold GetPodControllers, cache.call_Index.
  destruct (Nat.eqb _ 0) eqn:Hlen.
  { apply Nat.eqb_eq in Hlen. intros [= <- <-]. split; [done|].
    intros e [= <-]. by left. }
  unfold mbind at 1, M_bind at 1.
  destruct (cache.Index _ _ _) as [items [e'|]] eqn:Hindex.
  { intros [= <- <-]. split; [done|]. intros e [= <-]. right. right. by exists items. }
  unfold mbind at 1, M_bind at 1.
  destruct (GetPodControllers_loop pod items []) as [t [[|rc res]|]];
    [| |by intros [=]].
  - intros [= <- <-]. split; [done|]. intros e [= <-]. right. by left.
  - intros [= <- <-]. split; [done|]. by intros e [=].
Qed.

Lemma GetPodControllers_error_iff_empty_witness :
  result_of (GetPodControllers (rcLister scenario.controllers) scenario.p3)
  = Some ([scenario.rcY; scenario.rcZ], None)
  ∧ ((None : option error) = None ↔ [scenario.rcY; scenario.rcZ] ≠ [])
  ∧ result_of (GetPodControllers (rcLister scenario.controllers) scenario.p2)
    = Some ([], Some (errNoController scenario.p2)).
Proof.
  split; [reflexivity|]. split; [|reflexivity].
  by destruct (GetPodControllers_error_iff_empty
                 (rcLister scenario.controllers) scenario.p3
                 [scenario.rcY; scenario.rcZ] None eq_refl).
Defined.

(** X3. For a pod with at least one label, when the namespace index answers
    without error, [GetPodControllers] panics exactly when one of the
    returned items is not a replication controller: every item is asserted
    before its selector is looked at, so an item of another kind is fatal
    even though it could never match. *)
Theorem GetPodControllers_panics_iff_foreign_item (ix : cache.Indexer) (pod : v1.Pod)
    (items : list Object) :
  map_len (metav1.Labels (v1.Pod_ObjectMeta pod)) ≠ 0 →
  cache.Index ix cache.NamespaceIndex (probeKey pod) = (items, None) →
  result_of (GetPodControllers
               {| StoreToReplicationControllerLister_Indexer := ix |} pod) = None
  ↔ ∃ o, o ∈ items ∧ as_ReplicationController o = None.
Proof.
  intros Hlabels Hindex. rewrite <- Exists_exists. split.
  - intros Hpanic.
    destruct (decide (Forall (λ o, is_Some (as_ReplicationController o)) items))
      as [Hall|Hnot].
    + by rewrite (GetPodControllers_run ix pod items Hlabels Hindex Hall) in Hpanic.
    + apply not_Forall_Exists in Hnot; [|apply _].
      eapply Exists_impl; [exact Hnot|]. cbn. intros o Ho.
      by apply eq_None_not_Some.
  - intros Hex.
    by rewrite (GetPodControllers_run_panics ix pod items Hlabels Hindex Hex).
Qed.

Lemma GetPodControllers_panics_iff_foreign_item_witness :
  map_len (metav1.Labels (v1.Pod_ObjectMeta scenario.p3)) ≠ 0
  ∧ cache.Index (cache.newIndexer scenario.mixed) cache.NamespaceIndex
      (probeKey scenario.p3)
    = ([ServiceObject scenario.svcA; PodObject scenario.p1], None)
  ∧ result_of (GetPodControllers (rcLister scenario.mixed) scenario.p3) = None.
Proof.
  assert (map_len (metav1.Labels (v1.Pod_ObjectMeta scenario.p3)) ≠ 0) as Hlabels
    by (by vm_compute).
  assert (cache.Index (cache.newIndexer scenario.mixed) cache.NamespaceIndex
            (probeKey scenario.p3)
          = ([ServiceObject scenario.svcA; PodObject scenario.p1], None)) as Hindex
    by reflexivity.
  split; [exact Hlabels|]. split; [exact Hindex|].
  apply (GetPodControllers_panics_iff_foreign_item _ _ _ Hlabels Hindex).
  exists (ServiceObject scenario.svcA). split; [left|reflexivity].
Defined.

(** Selecting is monotone in the labels that are looked at. *)
Lemma Matches_mono (selector : labels.Selector) (ls ls' : gomap) :
  (∀ k v, map_get ls k = Some v → map_get ls' k = Some v) →
  labels.Matches selector ls → labels.Matches selector ls'.
Proof.
  intros Hsub. unfold labels.Matches. rewrite !forallb_True.
  intros Hall. eapply Forall_impl; [exact Hall|].
  intros r. unfold labels.Requirement_Matches.
  rewrite !bool_decide_spec. apply Hsub.
Qed.

Lemma map_get_empty (ls : gomap) (k : string) :
  map_len ls = 0 → map_get ls k = None.
Proof.
  destruct ls as [g|]; cbn; [|done].
  intros Hsize%map_size_empty_inv. subst g. apply lookup_empty.
Qed.

Lemma map_len_included (ls ls' : gomap) :
  (∀ k v, map_get ls k = Some v → map_get ls' k = Some v) →
  map_len ls ≠ 0 → map_len ls' ≠ 0.
Proof.
  intros Hsub Hlen Hlen'. apply Hlen.
  destruct ls as [g|]; cbn; [|done]. apply map_size_empty_iff, map_empty.
  intros k. destruct (g !! k) as [v|] eqn:Hk; [|done].
  apply (Hsub k v) in Hk. by rewrite (map_get_empty ls' k Hlen') in Hk.
Qed.

(** X4. [GetPodServices] is a filter over the namespace-scoped listing of
    the pod's namespace with the match-everything selector: when that
    listing returns without error, the result keeps, in the listing's
    order, exactly the listed services whose selector field is present and
    selects the pod's labels; it panics exactly when the listing does; and
    it makes no store access beyond the listing's. *)
Theorem GetPodServices_filters_listing (s : StoreToServiceLister) (pod : v1.Pod) :
  (∀ all,
     result_of (storeServicesNamespacer_List
                  (StoreToServiceLister_Services s
                     (metav1.Namespace (v1.Pod_ObjectMeta pod)))
                  labels.Everything)
     = Some (all, None) →
     ∃ services,
       result_of (GetPodServices s pod) = Some (services, None)
       ∧ sublist services all
       ∧ ∀ svc, svc ∈ services ↔
           svc ∈ all
           ∧ ∃ g, v1.ServiceSpec_Selector (v1.Service_Spec svc) = Some g
                  ∧ selects g (metav1.Labels (v1.Pod_ObjectMeta pod)))
  ∧ (result_of (storeServicesNamespacer_List
                  (StoreToServiceLister_Services s
                     (metav1.Namespace (v1.Pod_ObjectMeta pod)))
                  labels.Everything) = None
     ↔ result_of (GetPodServices s pod) = None)
  ∧ trace_of (GetPodServices s pod)
    = trace_of (storeServicesNamespacer_List
                  (StoreToServiceLister_Services s
                     (metav1.Namespace (v1.Pod_ObjectMeta pod)))
                  labels.Everything).
Proof.
  unfold GetPodServices, GetPodServices_of_listing.
  destruct (storeServicesNamespacer_List _ _) as [t [[all [e|]]|]];
    unfold mbind, M_bind, mret, M_ret, result_of, trace_of; cbn;
    rewrite ?app_nil_r.
  - split; [by intros all' [=]|]. by split.
  - split; [|by split]. intros all' [= <-].
    exists (filter (service_selects pod) all). rewrite GetPodServices_fold. cbn.
    split; [done|]. split; [apply sublist_filter|].
    intros svc. rewrite list_elem_of_filter, service_selects_iff. tauto.
  - split; [by intros all' [=]|]. by split.
Qed.

Lemma GetPodServices_filters_listing_witness :
  ∃ all,
    result_of (storeServicesNamespacer_List
                 (StoreToServiceLister_Services
                    (serviceLister scenario.services') "ns1") labels.Everything)
    = Some (all, None)
    ∧ length all = 3
    ∧ ∃ services,
        result_of (GetPodServices (serviceLister scenario.services') scenario.p1)
        = Some (services, None)
        ∧ sublist services all.
Proof.
  eexists. split; [vm_compute; reflexivity|]. split; [reflexivity|].
  destruct (GetPodServices_filters_listing
              (serviceLister scenario.services') scenario.p1) as (Hfilter & _).
  destruct (Hfilter _ eq_refl) as (services & Hres & Hsub & _).
  exists services. split; [exact Hres|exact Hsub].
Defined.

(** X5. Adding labels to a pod never loses a service: if every label of
    [pod] is a label of [pod'] and both are in the same namespace, then
    whenever [GetPodServices] returns for [pod] it returns for [pod'] with
    the same error, and every service returned for [pod] is returned for
    [pod']. *)
Theorem GetPodServices_monotone_in_labels (s : StoreToServiceLister)
    (pod pod' : v1.Pod) (services : list v1.Service) (err : option error) :
  metav1.Namespace (v1.Pod_ObjectMeta pod)
  = metav1.Namespace (v1.Pod_ObjectMeta pod') →
  (∀ k v, map_get (metav1.Labels (v1.Pod_ObjectMeta pod)) k = Some v →
          map_get (metav1.Labels (v1.Pod_ObjectMeta pod')) k = Some v) →
  result_of (GetPodServices s pod) = Some (services, err) →
  ∃ services',
    result_of (GetPodServices s pod') = Some (services', err)
    ∧ services ⊆ services'.
Proof.
  intros Hns Hsub. unfold GetPodServices, GetPodServices_of_listing. rewrite <- Hns.
  destruct (storeServicesNamespacer_List _ _) as [t [[all [e|]]|]];
    unfold mbind, M_bind, mret, M_ret, result_of; cbn; intros [= <- <-].
  - by exists [].
  - eexists. split; [done|]. rewrite !GetPodServices_fold. cbn.
    intros svc. rewrite !list_elem_of_filter. intros [Hsel Hin]. split; [|done].
    unfold service_selects in *.
    destruct (v1.ServiceSpec_Selector (v1.Service_Spec svc)); [|done].
    by eapply Matches_mono.
Qed.

Lemma GetPodServices_monotone_in_labels_witness :
  result_of (GetPodServices (serviceLister scenario.services') scenario.p0)
  = Some ([scenario.svcE], None)
  ∧ ∃ services',
      result_of (GetPodServices (serviceLister scenario.services') scenario.p1)
      = Some (services', None)
      ∧ [scenario.svcE] ⊆ services'.
Proof.
  split; [reflexivity|].
  apply (GetPodServices_monotone_in_labels
           (serviceLister scenario.services') scenario.p0 scenario.p1);
    [reflexivity|by intros k v Hk|reflexivity].
Defined.

(** X6. Adding labels to a labelled pod never loses a controller: under
    the same conditions, whenever [GetPodControllers] returns for [pod] it
    returns for [pod'], and every controller returned for [pod] is returned
    for [pod']. *)
Theorem GetPodControllers_monotone_in_labels
    (s : StoreToReplicationControllerLister) (pod pod' : v1.Pod)
    (controllers : list v1.ReplicationController) (err : option error) :
  map_len (metav1.Labels (v1.Pod_ObjectMeta pod)) ≠ 0 →
  metav1.Namespace (v1.Pod_ObjectMeta pod)
  = metav1.Namespace (v1.Pod_ObjectMeta pod') →
  (∀ k v, map_get (metav1.Labels (v1.Pod_ObjectMeta pod)) k = Some v →
          map_get (metav1.Labels (v1.Pod_ObjectMeta pod')) k = Some v) →
  result_of (GetPodControllers s pod) = Some (controllers, err) →
  ∃ controllers' err',
    result_of (GetPodControllers s pod') = Some (controllers', err')
    ∧ controllers ⊆ controllers'.
Proof.
  intros Hlabels Hns Hsub Hres. destruct s as [ix].
  pose proof (map_len_included _ _ Hsub Hlabels) as Hlabels'.
  assert (probeKey pod' = probeKey pod) as Hkey by (unfold probeKey; by rewrite Hns).
  destruct (cache.Index ix cache.NamespaceIndex (probeKey pod)) as [items [e|]]
    eqn:Hindex.
  - exists [], (Some e). split; [|].
    + unfold GetPodControllers, cache.call_Index.
      apply Nat.eqb_neq in Hlabels'. rewrite Hlabels', Hkey.
      cbn [StoreToReplicationControllerLister_Indexer].
      unfold mbind at 1, M_bind at 1. by rewrite Hindex.
    + unfold GetPodControllers, cache.call_Index in Hres.
      apply Nat.eqb_neq in Hlabels. rewrite Hlabels in Hres.
      cbn [StoreToReplicationControllerLister_Indexer] in Hres.
      unfold mbind at 1, M_bind at 1 in Hres. rewrite Hindex in Hres.
      by injection Hres as <- <-.
  - destruct (decide (Forall (λ o, is_Some (as_ReplicationController o)) items))
      as [Hall|Hnot].
    + rewrite (GetPodControllers_run ix pod items Hlabels Hindex Hall) in Hres.
      rewrite <- Hkey in Hindex.
      rewrite (GetPodControllers_run ix pod' items Hlabels' Hindex Hall).
      unfold result_of in *. cbn [snd] in *. cbn zeta in *.
      assert (filter (controller_owns pod) (omap as_ReplicationController items)
              ⊆ filter (controller_owns pod')
                  (omap as_ReplicationController items)) as Hincl.
      { intros rc. rewrite !list_elem_of_filter. intros [[Hne Hm] Hin].
        split; [|done]. split; [done|]. by eapply Matches_mono. }
      destruct (filter (controller_owns pod) _) as [|rc res];
        injection Hres as <- <-.
      * destruct (filter (controller_owns pod') _); by eexists _, _.
      * destruct (filter (controller_owns pod') _) as [|rc' res'] eqn:E.
        -- by destruct (not_elem_of_nil rc (Hincl rc ltac:(left))).
        -- by eexists _, _.
    + apply not_Forall_Exists in Hnot; [|apply _].
      rewrite (GetPodControllers_run_panics ix pod items Hlabels Hindex) in Hres;
        [done|].
      eapply Exists_impl; [exact Hnot|]. cbn. intros o Ho.
      by apply eq_None_not_Some.
Qed.

Lemma GetPodControllers_monotone_in_labels_witness :
  map_len (metav1.Labels (v1.Pod_ObjectMeta scenario.p3)) ≠ 0
  ∧ result_of (GetPodControllers (rcLister scenario.controllers) scenario.p3)
    = Some ([scenario.rcY; scenario.rcZ], None)
  ∧ ∃ controllers' err',
      result_of
        (GetPodControllers (rcLister scenario.controllers)
           (scenario.pod "p4" "ns1" (Some {[ "app" := "z"; "tier" := "db" ]})))
      = Some (controllers', err')
      ∧ [scenario.rcY; scenario.rcZ] ⊆ controllers'.
Proof.
  assert (map_len (metav1.Labels (v1.Pod_ObjectMeta scenario.p3)) ≠ 0) as Hlabels
    by (by vm_compute).
  split; [exact Hlabels|]. split; [reflexivity|].
  apply (GetPodControllers_monotone_in_labels
           (rcLister scenario.controllers) scenario.p3
           (scenario.pod "p4" "ns1" (Some {[ "app" := "z"; "tier" := "db" ]}))
           [scenario.rcY; scenario.rcZ] None Hlabels eq_refl); [|reflexivity].
  intros k v Hk. cbn in *. apply lookup_singleton_Some in Hk as [<- <-].
  reflexivity.
Defined.

(** X7. For a pod without labels (a nil or an empty label mapping), every
    service that [GetPodServices] returns has a selector field that is
    present and has no pair: no service with an actual requirement selects
    a labelless pod, whatever the store answers. *)
Theorem GetPodServices_of_labelless_pod (s : StoreToServiceLister) (pod : v1.Pod)
    (services : list v1.Service) (err : option error) :
  map_len (metav1.Labels (v1.Pod_ObjectMeta pod)) = 0 →
  result_of (GetPodServices s pod) = Some (services, err) →
  ∀ svc, svc ∈ services →
    v1.ServiceSpec_Selector (v1.Service_Spec svc) = Some ∅.
Proof.
  intros Hlen Hres svc Hin.
  apply (GetPodServices_sound s pod services err Hres) in Hin.
  apply service_selects_iff in Hin as (g & Hg & Hsel).
  rewrite Hg. f_equal. apply map_empty. intros k.
  destruct (g !! k) as [v|] eqn:Hk; [|done].
  apply Hsel in Hk. by rewrite (map_get_empty _ k Hlen) in Hk.
Qed.

Lemma GetPodServices_of_labelless_pod_witness :
  map_len (metav1.Labels (v1.Pod_ObjectMeta scenario.p0)) = 0
  ∧ result_of (GetPodServices (serviceLister scenario.services') scenario.p0)
    = Some ([scenario.svcE], None)
  ∧ v1.ServiceSpec_Selector (v1.Service_Spec scenario.svcE) = Some ∅.
Proof.
  split; [reflexivity|]. split; [reflexivity|].
  apply (GetPodServices_of_labelless_pod
           (serviceLister scenario.services') scenario.p0 [scenario.svcE] None
           eq_refl eq_refl).
  left.
Defined.

(** X8. Over a store state, [GetPodServices] returns (rather than panics)
    exactly when every object stored in the pod's namespace is a service:
    the listing hands every object of the namespace to the asserting
    callback, so one object of another kind in the namespace makes the
    resolution panic for every pod of that namespace. *)
Theorem GetPodServices_returns_iff_services_only (m : gmap string Object)
    (pod : v1.Pod) :
  is_Some (result_of (GetPodServices (serviceLister m) pod))
  ↔ ∀ k o, m !! k = Some o →
      metav1.Namespace (Accessor o) = metav1.Namespace (v1.Pod_ObjectMeta pod) →
      is_Some (as_Service o).
Proof.
  split.
  - intros [r Hr]. exact (GetPodServices_returns_of_kind m pod r Hr).
  - intros Hkind. eexists.
    by rewrite (GetPodServices_newIndexer m pod Hkind).
Qed.

(** * Further properties of the exact-key lookups *)

(** The kinds of [v1kinds], read without asserting them. *)
Definition as_kind (kind : string) (o : Object) : option metav1.ObjectMeta :=
  match o with
  | OtherObject k meta => if String.eqb k kind then Some meta else None
  | _ => None
  end.

Definition as_ServiceAccount (o : Object) : option v1kinds.ServiceAccount :=
  v1kinds.Build_ServiceAccount <$> as_kind "ServiceAccount" o.

Definition as_LimitRange (o : Object) : option v1kinds.LimitRange :=
  v1kinds.Build_LimitRange <$> as_kind "LimitRange" o.

Definition as_PersistentVolumeClaim (o : Object)
  : option v1kinds.PersistentVolumeClaim :=
  v1kinds.Build_PersistentVolumeClaim <$> as_kind "PersistentVolumeClaim" o.

Definition as_Namespace (o : Object) : option v1kinds.Namespace :=
  v1kinds.Build_Namespace <$> as_kind "Namespace" o.

(** What a [Get] yields from the three results of [GetByKey]. *)
Definition lookup_outcome {T : Type} (proj : Object → option T)
    (resource name : string) (r : option Object * bool * option error)
  : outcome (option T * option error) :=
  let '(obj, found, err) := r in
  match err with
  | Some e => Returns (None, Some e)
  | None =>
      if found
      then match obj ≫= proj with
           | Some x => Returns (Some x, None)
           | None => Panics
           end
      else Returns (None, Some (NewNotFound resource name))
  end.

(** The store state is keyed by the composite key of its objects. *)
Definition keyed (m : gmap string Object) : Prop :=
  map_Forall
    (λ k o, k = metav1.Namespace (Accessor o) +:+ "/" +:+ metav1.Name (Accessor o))
    m.

#[global] Instance keyed_dec m : Decision (keyed m).
Proof. unfold keyed. apply _. Defined.

Module scenario_rest.

Definition sa : v1kinds.ServiceAccount :=
  {| v1kinds.ServiceAccount_ObjectMeta := scenario.meta "default" "ns1" None |}.

Definition lr : v1kinds.LimitRange :=
  {| v1kinds.LimitRange_ObjectMeta := scenario.meta "limits" "ns1" None |}.

Definition pvc : v1kinds.PersistentVolumeClaim :=
  {| v1kinds.PersistentVolumeClaim_ObjectMeta := scenario.meta "data" "ns1" None |}.

Definition ns1 : v1kinds.Namespace :=
  {| v1kinds.Namespace_ObjectMeta := scenario.meta "ns1" "" None |}.

(** One store holding one object of each kind. *)
Definition store : gmap string Object :=
  {[ "ns1/default" := v1kinds.ServiceAccountObject sa;
     "ns1/limits" := v1kinds.LimitRangeObject lr;
     "ns1/data" := v1kinds.PersistentVolumeClaimObject pvc;
     "ns1/rcY" := ReplicationControllerObject scenario.rcY;
     "ns1" := v1kinds.NamespaceObject ns1 ]}.

End scenario_rest.

Import listers_rest.

Lemma assert_kind_proj (kind : string) (m : Object) :
  assert_kind kind m
  = match as_kind kind m with Some x => mret x | None => panic end.
Proof. destruct m; try done. cbn. by destruct (String.eqb _ _). Qed.

Lemma assert_ServiceAccount_proj (m : Object) :
  assert_ServiceAccount m
  = match as_ServiceAccount m with Some x => mret x | None => panic end.
Proof.
  unfold assert_ServiceAccount, as_ServiceAccount. rewrite assert_kind_proj.
  by destruct (as_kind _ m).
Qed.

Lemma assert_LimitRange_proj (m : Object) :
  assert_LimitRange m
  = match as_LimitRange m with Some x => mret x | None => panic end.
Proof.
  unfold assert_LimitRange, as_LimitRange. rewrite assert_kind_proj.
  by destruct (as_kind _ m).
Qed.

Lemma assert_PersistentVolumeClaim_proj (m : Object) :
  assert_PersistentVolumeClaim m
  = match as_PersistentVolumeClaim m with Some x => mret x | None => panic end.
Proof.
  unfold assert_PersistentVolumeClaim, as_PersistentVolumeClaim.
  rewrite assert_kind_proj. by destruct (as_kind _ m).
Qed.

Lemma assert_Namespace_proj (m : Object) :
  assert_Namespace m
  = match as_Namespace m with Some x => mret x | None => panic end.
Proof.
  unfold assert_Namespace, as_Namespace. rewrite assert_kind_proj.
  by destruct (as_kind _ m).
Qed.

(** The body shared by all the [Get]s, once the assertion is known to
    follow a projection. *)
Lemma Get_body_run {T : Type} (assert_T : Object → M T) (proj : Object → option T)
    (resource name key : string) (ix : cache.Indexer) :
  (∀ m, assert_T m = match proj m with Some x => mret x | None => panic end) →
  ('(obj, exists_, err) ← cache.call_GetByKey ix key;
   match err with
   | Some e => mret (None, Some e)
   | None =>
       if negb exists_
       then mret (None, Some (NewNotFound resource name))
       else x ← assert_value assert_T obj; mret (Some x, None)
   end)
  = ([GetByKeyAccess key],
     lookup_outcome proj resource name (cache.GetByKey ix key)).
Proof.
  intros Hproj. unfold cache.call_GetByKey, lookup_outcome.
  unfold mbind at 1, M_bind at 1.
  destruct (cache.GetByKey ix key) as [[obj found] [e|]]; [done|].
  destruct found; [|done]. destruct obj as [o|]; [|done].
  cbn. rewrite Hproj. by destruct (proj o).
Qed.

Lemma storeReplicationControllersNamespacer_Get_run (ix : cache.Indexer)
    (ns name : string) :
  storeReplicationControllersNamespacer_Get
    (StoreToReplicationControllerLister_ReplicationControllers
       {| StoreToReplicationControllerLister_Indexer := ix |} ns) name
  = ([GetByKeyAccess (ns +:+ "/" +:+ name)],
     lookup_outcome as_ReplicationController "replicationcontroller" name
       (cache.GetByKey ix (ns +:+ "/" +:+ name))).
Proof.
  unfold storeReplicationControllersNamespacer_Get, cache.call_GetByKey, lookup_outcome.
  cbn [StoreToReplicationControllerLister_ReplicationControllers
       StoreToReplicationControllerLister_Indexer
       storeReplicationControllersNamespacer_indexer
       storeReplicationControllersNamespacer_namespace].
  unfold mbind at 1, M_bind at 1.
  destruct (cache.GetByKey ix _) as [[obj found] [e|]]; [done|].
  destruct found; [|done]. by destruct obj as [[]|].
Qed.

Lemma storeServiceAccountsNamespacer_Get_run (ix : cache.Indexer) (ns name : string) :
  storeServiceAccountsNamespacer_Get
    (StoreToServiceAccountLister_ServiceAccounts
       {| StoreToServiceAccountLister_Indexer := ix |} ns) name
  = ([GetByKeyAccess (ns +:+ "/" +:+ name)],
     lookup_outcome as_ServiceAccount "serviceaccount" name
       (cache.GetByKey ix (ns +:+ "/" +:+ name))).
Proof. apply Get_body_run, assert_ServiceAccount_proj. Qed.

Lemma storeLimitRangesNamespacer_Get_run (ix : cache.Indexer) (ns name : string) :
  storeLimitRangesNamespacer_Get
    (StoreToLimitRangeLister_LimitRanges
       {| StoreToLimitRangeLister_Indexer := ix |} ns) name
  = ([GetByKeyAccess (ns +:+ "/" +:+ name)],
     lookup_outcome as_LimitRange "limitrange" name
       (cache.GetByKey ix (ns +:+ "/" +:+ name))).
Proof. apply Get_body_run, assert_LimitRange_proj. Qed.

Lemma storePersistentVolumeClaimsNamespacer_Get_run (ix : cache.Indexer)
    (ns name : string) :
  storePersistentVolumeClaimsNamespacer_Get
    (StoreToPersistentVolumeClaimLister_PersistentVolumeClaims
       {| StoreToPersistentVolumeClaimLister_Indexer := ix |} ns) name
  = ([GetByKeyAccess (ns +:+ "/" +:+ name)],
     lookup_outcome as_PersistentVolumeClaim "persistentvolumeclaims" name
       (cache.GetByKey ix (ns +:+ "/" +:+ name))).
Proof. apply Get_body_run, assert_PersistentVolumeClaim_proj. Qed.

Lemma IndexerToNamespaceLister_Get_run (ix : cache.Indexer) (name : string) :
  IndexerToNamespaceLister_Get {| IndexerToNamespaceLister_Indexer := ix |} name
  = ([GetByKeyAccess name],
     lookup_outcome as_Namespace "namespace" name (cache.GetByKey ix name)).
Proof. apply Get_body_run, assert_Namespace_proj. Qed.

(** X9. When the store lookup itself fails, every namespaced [Get] returns
    that error with a nil object after its single lookup of the composite
    key: neither the [found] flag nor the returned value is looked at, so
    no type assertion is made and nothing panics. *)
Theorem Get_returns_lookup_error (ix : cache.Indexer) (ns name : string)
    (obj : option Object) (found : bool) (e : error) :
  cache.GetByKey ix (ns +:+ "/" +:+ name) = (obj, found, Some e) →
  storePodsNamespacer_Get
    (StoreToPodLister_Pods {| StoreToPodLister_Indexer := ix |} ns) name
  = ([GetByKeyAccess (ns +:+ "/" +:+ name)], Returns (None, Some e))
  ∧ storeServicesNamespacer_Get
      (StoreToServiceLister_Services {| StoreToServiceLister_Indexer := ix |} ns)
      name
    = ([GetByKeyAccess (ns +:+ "/" +:+ name)], Returns (None, Some e))
  ∧ storeReplicationControllersNamespacer_Get
      (StoreToReplicationControllerLister_ReplicationControllers
         {| StoreToReplicationControllerLister_Indexer := ix |} ns) name
    = ([GetByKeyAccess (ns +:+ "/" +:+ name)], Returns (None, Some e))
  ∧ storeServiceAccountsNamespacer_Get
      (StoreToServiceAccountLister_ServiceAccounts
         {| StoreToServiceAccountLister_Indexer := ix |} ns) name
    = ([GetByKeyAccess (ns +:+ "/" +:+ name)], Returns (None, Some e))
  ∧ storeLimitRangesNamespacer_Get
      (StoreToLimitRangeLister_LimitRanges
         {| StoreToLimitRangeLister_Indexer := ix |} ns) name
    = ([GetByKeyAccess (ns +:+ "/" +:+ name)], Returns (None, Some e))
  ∧ storePersistentVolumeClaimsNamespacer_Get
      (StoreToPersistentVolumeClaimLister_PersistentVolumeClaims
         {| StoreToPersistentVolumeClaimLister_Indexer := ix |} ns) name
    = ([GetByKeyAccess (ns +:+ "/" +:+ name)], Returns (None, Some e)).
Proof.
  intros Hget.
  rewrite storePodsNamespacer_Get_run, storeServicesNamespacer_Get_run,
    storeReplicationControllersNamespacer_Get_run,
    storeServiceAccountsNamespacer_Get_run, storeLimitRangesNamespacer_Get_run,
    storePersistentVolumeClaimsNamespacer_Get_run.
  unfold lookup_outcome. by rewrite Hget.
Qed.

Lemma Get_returns_lookup_error_witness :
  cache.GetByKey scenario.unavailable ("ns1" +:+ "/" +:+ "p1")
  = (None, false, Some (StoreError "unavailable"))
  ∧ storePodsNamespacer_Get
      (StoreToPodLister_Pods
         {| StoreToPodLister_Indexer := scenario.unavailable |} "ns1") "p1"
    = ([GetByKeyAccess "ns1/p1"], Returns (None, Some (StoreError "unavailable"))).
Proof.
  split; [reflexivity|].
  by destruct (Get_returns_lookup_error scenario.unavailable "ns1" "p1"
                 None false (StoreError "unavailable") eq_refl).
Defined.

(** X10. When the composite key is absent (and the lookup did not fail),
    [Get] of the replication-controller, service-account, limit-range and
    claim listers returns a nil object and [NewNotFound] with the lister's
    own resource name and the requested name; the resource names are
    singular except for the claims, which report "persistentvolumeclaims".
    The returned value is not asserted, so nothing panics. *)
Theorem Get_not_found_resource (ix : cache.Indexer) (ns name : string)
    (obj : option Object) :
  cache.GetByKey ix (ns +:+ "/" +:+ name) = (obj, false, None) →
  result_of (storeReplicationControllersNamespacer_Get
               (StoreToReplicationControllerLister_ReplicationControllers
                  {| StoreToReplicationControllerLister_Indexer := ix |} ns) name)
  = Some (None, Some (NewNotFound "replicationcontroller" name))
  ∧ result_of (storeServiceAccountsNamespacer_Get
                 (StoreToServiceAccountLister_ServiceAccounts
                    {| StoreToServiceAccountLister_Indexer := ix |} ns) name)
    = Some (None, Some (NewNotFound "serviceaccount" name))
  ∧ result_of (storeLimitRangesNamespacer_Get
                 (StoreToLimitRangeLister_LimitRanges
                    {| StoreToLimitRangeLister_Indexer := ix |} ns) name)
    = Some (None, Some (NewNotFound "limitrange" name))
  ∧ result_of (storePersistentVolumeClaimsNamespacer_Get
                 (StoreToPersistentVolumeClaimLister_PersistentVolumeClaims
                    {| StoreToPersistentVolumeClaimLister_Indexer := ix |} ns) name)
    = Some (None, Some (NewNotFound "persistentvolumeclaims" name)).
Proof.
  intros Hget.
  rewrite storeReplicationControllersNamespacer_Get_run,
    storeServiceAccountsNamespacer_Get_run, storeLimitRangesNamespacer_Get_run,
    storePersistentVolumeClaimsNamespacer_Get_run.
  unfold lookup_outcome. by rewrite Hget.
Qed.

Lemma Get_not_found_resource_witness :
  cache.GetByKey (cache.newIndexer scenario_rest.store) ("ns2" +:+ "/" +:+ "data")
  = (None, false, None)
  ∧ result_of (storePersistentVolumeClaimsNamespacer_Get
                 (StoreToPersistentVolumeClaimLister_PersistentVolumeClaims
                    {| StoreToPersistentVolumeClaimLister_Indexer :=
                         cache.newIndexer scenario_rest.store |} "ns2") "data")
    = Some (None, Some (NewNotFound "persistentvolumeclaims" "data")).
Proof.
  split; [reflexivity|].
  by destruct (Get_not_found_resource (cache.newIndexer scenario_rest.store)
                 "ns2" "data" None eq_refl) as (_ & _ & _ & Hpvc).
Defined.

(** X11. When the composite key is present, [Get] of the same four listers
    returns the stored value with a nil error if its dynamic type is the
    lister's kind, and panics on the unchecked assertion otherwise: a value
    of any other kind stored under the key is never returned and never
    turned into an error. *)
Theorem Get_present_asserts_kind (ix : cache.Indexer) (ns name : string)
    (o : Object) :
  cache.GetByKey ix (ns +:+ "/" +:+ name) = (Some o, true, None) →
  result_of (storeReplicationControllersNamespacer_Get
               (StoreToReplicationControllerLister_ReplicationControllers
                  {| StoreToReplicationControllerLister_Indexer := ix |} ns) name)
  = (λ x, (Some x, None)) <$> as_ReplicationController o
  ∧ result_of (storeServiceAccountsNamespacer_Get
                 (StoreToServiceAccountLister_ServiceAccounts
                    {| StoreToServiceAccountLister_Indexer := ix |} ns) name)
    = (λ x, (Some x, None)) <$> as_ServiceAccount o
  ∧ result_of (storeLimitRangesNamespacer_Get
                 (StoreToLimitRangeLister_LimitRanges
                    {| StoreToLimitRangeLister_Indexer := ix |} ns) name)
    = (λ x, (Some x, None)) <$> as_LimitRange o
  ∧ result_of (storePersistentVolumeClaimsNamespacer_Get
                 (StoreToPersistentVolumeClaimLister_PersistentVolumeClaims
                    {| StoreToPersistentVolumeClaimLister_Indexer := ix |} ns) name)
    = (λ x, (Some x, None)) <$> as_PersistentVolumeClaim o.
Proof.
  intros Hget.
  rewrite storeReplicationControllersNamespacer_Get_run,
    storeServiceAccountsNamespacer_Get_run, storeLimitRangesNamespacer_Get_run,
    storePersistentVolumeClaimsNamespacer_Get_run.
  unfold lookup_outcome, result_of. rewrite Hget. cbn.
  by destruct (as_ReplicationController o), (as_ServiceAccount o),
    (as_LimitRange o), (as_PersistentVolumeClaim o).
Qed.

Lemma Get_present_asserts_kind_witness :
  cache.GetByKey (cache.newIndexer scenario_rest.store) ("ns1" +:+ "/" +:+ "limits")
  = (Some (v1kinds.LimitRangeObject scenario_rest.lr), true, None)
  ∧ result_of (storeLimitRangesNamespacer_Get
                 (StoreToLimitRangeLister_LimitRanges
                    {| StoreToLimitRangeLister_Indexer :=
                         cache.newIndexer scenario_rest.store |} "ns1") "limits")
    = Some (Some scenario_rest.lr, None)
  ∧ result_of (storeServiceAccountsNamespacer_Get
                 (StoreToServiceAccountLister_ServiceAccounts
                    {| StoreToServiceAccountLister_Indexer :=
                         cache.newIndexer scenario_rest.store |} "ns1") "limits")
    = None.
Proof.
  split; [reflexivity|].
  destruct (Get_present_asserts_kind (cache.newIndexer scenario_rest.store)
              "ns1" "limits" _ eq_refl) as (_ & Hsa & Hlr & _).
  split; [exact Hlr|exact Hsa].
Defined.

(** X12. The namespace lister is not namespaced: its [Get] makes one store
    lookup, of the bare name with no namespace prefix.  It returns the
    lookup's error if there is one, [NewNotFound] for the resource
    "namespace" if the key is absent, the stored namespace if the key holds
    one, and panics if the key holds a value of another kind. *)
Theorem Namespace_Get_by_bare_name (ix : cache.Indexer) (name : string) :
  trace_of (IndexerToNamespaceLister_Get
              {| IndexerToNamespaceLister_Indexer := ix |} name)
  = [GetByKeyAccess name]
  ∧ (∀ obj found e,
       cache.GetByKey ix name = (obj, found, Some e) →
       result_of (IndexerToNamespaceLister_Get
                    {| IndexerToNamespaceLister_Indexer := ix |} name)
       = Some (None, Some e))
  ∧ (∀ obj,
       cache.GetByKey ix name = (obj, false, None) →
       result_of (IndexerToNamespaceLister_Get
                    {| IndexerToNamespaceLister_Indexer := ix |} name)
       = Some (None, Some (NewNotFound "namespace" name)))
  ∧ (∀ o,
       cache.GetByKey ix name = (Some o, true, None) →
       result_of (IndexerToNamespaceLister_Get
                    {| IndexerToNamespaceLister_Indexer := ix |} name)
       = (λ x, (Some x, None)) <$> as_Namespace o).
Proof.
  rewrite IndexerToNamespaceLister_Get_run.
  unfold lookup_outcome, result_of, trace_of. cbn [fst snd].
  split; [done|]. split; [|split].
  - by intros obj found e ->.
  - by intros obj ->.
  - intros o ->. cbn. by destruct (as_Namespace o).
Qed.

Lemma Namespace_Get_by_bare_name_witness :
  IndexerToNamespaceLister_Get
    {| IndexerToNamespaceLister_Indexer := cache.newIndexer scenario_rest.store |}
    "ns1"
  = ([GetByKeyAccess "ns1"], Returns (Some scenario_rest.ns1, None))
  ∧ result_of (IndexerToNamespaceLister_Get
                 {| IndexerToNamespaceLister_Indexer :=
                      cache.newIndexer scenario_rest.store |} "ns9")
    = Some (None, Some (NewNotFound "namespace" "ns9")).
Proof.
  destruct (Namespace_Get_by_bare_name (cache.newIndexer scenario_rest.store) "ns1")
    as (Ht & _ & _ & Hpresent).
  specialize (Hpresent _ eq_refl).
  destruct (Namespace_Get_by_bare_name (cache.newIndexer scenario_rest.store) "ns9")
    as (_ & _ & Habsent & _).
  split; [|exact (Habsent None eq_refl)].
  apply result_of_Some in Hpresent. rewrite Ht in Hpresent. exact Hpresent.
Defined.

(** * Further properties relating the listings, the lookups and the resolvers *)

Lemma GetByKey_newIndexer (m : gmap string Object) (k : string) :
  cache.GetByKey (cache.newIndexer m) k
  = (m !! k, bool_decide (is_Some (m !! k)), None).
Proof. reflexivity. Qed.

(** X13. Over a store state keyed by the composite key of its objects,
    every pod that the namespace-scoped listing returns can be fetched back:
    [Get] of the same namespace with the pod's name returns that very pod,
    without error, after the single lookup of the composite key. *)
Theorem listed_pod_is_gettable (m : gmap string Object) (ns : string)
    (selector : labels.Selector) (scoped : list v1.Pod) (e : option error)
    (p : v1.Pod) :
  keyed m →
  result_of (storePodsNamespacer_List
               (StoreToPodLister_Pods (podLister m) ns) selector)
  = Some (scoped, e) →
  p ∈ scoped →
  storePodsNamespacer_Get (StoreToPodLister_Pods (podLister m) ns)
    (metav1.Name (v1.Pod_ObjectMeta p))
  = ([GetByKeyAccess (ns +:+ "/" +:+ metav1.Name (v1.Pod_ObjectMeta p))],
     Returns (Some p, None)).
Proof.
  intros Hkeyed Hres Hin.
  destruct (storePodsNamespacer_List_newIndexer m ns selector scoped e Hres)
    as [_ ->].
  apply elem_of_listed_pods_in_namespace in Hin as ([k Hk] & Hns & _).
  pose proof (Hkeyed k _ Hk) as Hkey. cbn in Hkey. rewrite Hns in Hkey. subst k.
  unfold podLister. rewrite storePodsNamespacer_Get_run, GetByKey_newIndexer, Hk.
  reflexivity.
Qed.

Lemma listed_pod_is_gettable_witness :
  keyed scenario.pods
  ∧ result_of (storePodsNamespacer_List
                 (StoreToPodLister_Pods (podLister scenario.pods) "ns1")
                 labels.Everything)
    = Some ([scenario.p1], None)
  ∧ storePodsNamespacer_Get (StoreToPodLister_Pods (podLister scenario.pods) "ns1")
      "p1"
    = ([GetByKeyAccess "ns1/p1"], Returns (Some scenario.p1, None)).
Proof.
  assert (keyed scenario.pods) as Hkeyed
    by (apply (bool_decide_unpack _); vm_compute; exact I).
  split; [exact Hkeyed|]. split; [reflexivity|].
  apply (listed_pod_is_gettable scenario.pods "ns1" labels.Everything
           [scenario.p1] None scenario.p1 Hkeyed eq_refl).
  left.
Defined.

(** X14. [Get] never invents a pod: a pod that [Get] returns is stored, so
    the whole-store listing with the match-everything selector, whenever it
    returns, contains it. *)
Theorem gotten_pod_is_listed (m : gmap string Object) (ns name : string)
    (p : v1.Pod) (all : list v1.Pod) (e e' : option error) :
  result_of (storePodsNamespacer_Get (StoreToPodLister_Pods (podLister m) ns) name)
  = Some (Some p, e) →
  result_of (StoreToPodLister_List (podLister m) labels.Everything)
  = Some (all, e') →
  stored m (PodObject p) ∧ p ∈ all.
Proof.
  unfold podLister at 1.
  rewrite storePodsNamespacer_Get_run, GetByKey_newIndexer.
  unfold result_of at 1. cbn [snd].
  destruct (m !! (ns +:+ "/" +:+ name)) as [o|] eqn:Hk; [|by intros [=]].
  rewrite bool_decide_eq_true_2 by (by eexists).
  destruct o as [p'| | | |]; try (by intros [=]). intros [= -> <-] Hall.
  assert (stored m (PodObject p)) as Hst by (by eexists).
  split; [exact Hst|].
  destruct (StoreToPodLister_List_newIndexer m _ all e' Hall) as [_ ->].
  apply elem_of_listed_pods. by split.
Qed.

Lemma gotten_pod_is_listed_witness :
  result_of (storePodsNamespacer_Get
               (StoreToPodLister_Pods (podLister scenario.pods) "ns1") "p1")
  = Some (Some scenario.p1, None)
  ∧ ∃ all,
      result_of (StoreToPodLister_List (podLister scenario.pods) labels.Everything)
      = Some (all, None)
      ∧ scenario.p1 ∈ all.
Proof.
  split; [reflexivity|]. eexists. split; [vm_compute; reflexivity|].
  by destruct (gotten_pod_is_listed scenario.pods "ns1" "p1" scenario.p1
                 _ None None eq_refl eq_refl).
Defined.

Section typed_listers_results.

Context {T : Type} (assert_T : Object → M T) (proj : Object → option T).
Hypothesis assert_proj :
  ∀ m, assert_T m = match proj m with Some x => mret x | None => panic end.

Variables (ix : cache.Indexer) (selector : labels.Selector).

Local Abbreviation appendFn :=
  (λ (m : Object) (ret : list T), x ← assert_T m; mret (ret ++ [x])%list).

(** What the listing helpers return, when they return. *)
Lemma ListAll_result (items : list Object) (l : list T) (e : option error) :
  cache.List ix = (items, None) →
  result_of (cache.ListAll ix selector appendFn []) = Some (l, e) →
  e = None ∧ l = omap proj (filter (labelled selector) items).
Proof.
  intros Hlist Hres.
  destruct (decide (Forall (λ o, labelled selector o → is_Some (proj o)) items))
    as [Hall|Hnot].
  - rewrite (ListAll_returns assert_T proj assert_proj ix selector items Hlist Hall)
      in Hres.
    by injection Hres as <- <-.
  - apply not_labelled_of_kind in Hnot.
    by rewrite (ListAll_panics assert_T proj assert_proj ix selector items Hlist Hnot)
      in Hres.
Qed.

Lemma ListAllByNamespace_result (ns : string) (items : list Object) (l : list T)
    (e : option error) :
  cache.Index ix cache.NamespaceIndex (namespaceProbe ns) = (items, None) →
  result_of (cache.ListAllByNamespace ix ns selector appendFn []) = Some (l, e) →
  e = None ∧ l = omap proj (filter (labelled selector) items).
Proof.
  intros Hindex Hres.
  destruct (decide (Forall (λ o, labelled selector o → is_Some (proj o)) items))
    as [Hall|Hnot].
  - rewrite (ListAllByNamespace_returns assert_T proj assert_proj ix selector ns
               items Hindex Hall) in Hres.
    by injection Hres as <- <-.
  - apply not_labelled_of_kind in Hnot.
    by rewrite (ListAllByNamespace_panics assert_T proj assert_proj ix selector ns
                  items Hindex Hnot) in Hres.
Qed.

End typed_listers_results.

(** The controllers [GetPodControllers] returns are among the items the
    namespace index answered its probe with. *)
Lemma GetPodControllers_from_items (ix : cache.Indexer) (pod : v1.Pod)
    (items : list Object) (err0 : option error)
    (controllers : list v1.ReplicationController) (err : option error) :
  cache.Index ix cache.NamespaceIndex (probeKey pod) = (items, err0) →
  result_of (GetPodControllers
               {| StoreToReplicationControllerLister_Indexer := ix |} pod)
  = Some (controllers, err) →
  ∀ rc, rc ∈ controllers → ReplicationControllerObject rc ∈ items.
Proof.
  intros Hindex. unfold GetPodControllers, cache.call_Index.
  destruct (Nat.eqb _ 0).
  { intros [= <- <-] rc Hin. by apply elem_of_nil in Hin. }
  cbn [StoreToReplicationControllerLister_Indexer].
  unfold mbind at 1, M_bind at 1. rewrite Hindex.
  destruct err0 as [e0|].
  { intros [= <- <-] rc Hin. by apply elem_of_nil in Hin. }
  unfold mbind at 1, M_bind at 1.
  destruct (GetPodControllers_loop pod items []) as [t [res|]] eqn:Hloop;
    [|by intros [=]].
  intros Hres rc Hin.
  assert (controllers = res) as ->.
  { destruct (Nat.eqb (length res) 0); by injection Hres as <- <-. }
  destruct (GetPodControllers_loop_sound pod items [] res t Hloop rc Hin)
    as [Hnil|[Hitem _]]; [by apply elem_of_nil in Hnil|done].
Qed.

(** X15. The resolver and the lister of replication controllers agree on
    the namespace, as sets: whenever the namespace index answers the
    lister's probe of the pod's namespace, without error, with at least the
    items it answers the resolver's probe with, in whatever order, every
    controller that [GetPodControllers] returns for the pod is among those
    that the namespace-scoped listing of the pod's namespace returns with
    the match-everything selector.  A store state is such an index. *)
Theorem owning_controllers_are_listed (ix : cache.Indexer) (pod : v1.Pod)
    (items items' : list Object) (err0 : option error)
    (controllers all : list v1.ReplicationController) (err e : option error) :
  cache.Index ix cache.NamespaceIndex (probeKey pod) = (items, err0) →
  cache.Index ix cache.NamespaceIndex
    (namespaceProbe (metav1.Namespace (v1.Pod_ObjectMeta pod)))
  = (items', None) →
  (∀ o, o ∈ items → o ∈ items') →
  result_of (GetPodControllers
               {| StoreToReplicationControllerLister_Indexer := ix |} pod)
  = Some (controllers, err) →
  result_of (storeReplicationControllersNamespacer_List
               (StoreToReplicationControllerLister_ReplicationControllers
                  {| StoreToReplicationControllerLister_Indexer := ix |}
                  (metav1.Namespace (v1.Pod_ObjectMeta pod)))
               labels.Everything)
  = Some (all, e) →
  ∀ rc, rc ∈ controllers → rc ∈ all.
Proof.
  intros Hindex Hindex' Hincl Hres Hall rc Hin.
  apply (GetPodControllers_from_items ix pod items err0 controllers err Hindex Hres)
    in Hin.
  unfold storeReplicationControllersNamespacer_List in Hall.
  cbn [StoreToReplicationControllerLister_ReplicationControllers
       StoreToReplicationControllerLister_Indexer
       storeReplicationControllersNamespacer_indexer
       storeReplicationControllersNamespacer_namespace] in Hall.
  apply (ListAllByNamespace_result assert_ReplicationController
           as_ReplicationController assert_ReplicationController_proj
           ix labels.Everything _ items' all e Hindex') in Hall as [_ ->].
  rewrite filter_everything. apply elem_of_omap_as_ReplicationController.
  by apply Hincl.
Qed.

Lemma owning_controllers_are_listed_witness :
  result_of (GetPodControllers (rcLister scenario.controllers) scenario.p3)
  = Some ([scenario.rcY; scenario.rcZ], None)
  ∧ ∃ all,
      result_of (storeReplicationControllersNamespacer_List
                   (StoreToReplicationControllerLister_ReplicationControllers
                      (rcLister scenario.controllers) "ns1") labels.Everything)
      = Some (all, None)
      ∧ length all = 3
      ∧ scenario.rcY ∈ all ∧ scenario.rcZ ∈ all.
Proof.
  split; [reflexivity|]. eexists. split; [vm_compute; reflexivity|].
  split; [reflexivity|].
  pose proof (owning_controllers_are_listed
                (cache.newIndexer scenario.controllers) scenario.p3
                _ _ None [scenario.rcY; scenario.rcZ] _ None None
                eq_refl eq_refl (λ o Ho, Ho) eq_refl eq_refl) as Hlisted.
  split; apply Hlisted.
  - left.
  - right. left.
Defined.

(** * Further properties of the typed listings *)

(** The list [l] holds exactly the stored objects of one kind, embedded in
    the store by [inj], whose labels satisfy the selector. *)
Definition listed_exactly {T : Type} (inj : T → Object) (m : gmap string Object)
    (selector : labels.Selector) (l : list T) : Prop :=
  ∀ x, x ∈ l ↔
    stored m (inj x)
    ∧ labels.Matches selector (metav1.Labels (Accessor (inj x))) = true.

(** The same, restricted to the objects of the namespace [ns]. *)
Definition listed_exactly_in {T : Type} (inj : T → Object) (m : gmap string Object)
    (ns : string) (selector : labels.Selector) (l : list T) : Prop :=
  ∀ x, x ∈ l ↔
    stored m (inj x)
    ∧ metav1.Namespace (Accessor (inj x)) = ns
    ∧ labels.Matches selector (metav1.Labels (Accessor (inj x))) = true.

Section listings_of_a_kind.

Context {T : Type} (assert_T : Object → M T) (proj : Object → option T)
  (inj : T → Object).
Hypothesis assert_proj :
  ∀ m, assert_T m = match proj m with Some x => mret x | None => panic end.
Hypothesis proj_inj : ∀ o x, proj o = Some x ↔ o = inj x.

Lemma elem_of_omap_proj (x : T) (l : list Object) : x ∈ omap proj l ↔ inj x ∈ l.
Proof.
  rewrite list_elem_of_omap. split.
  - intros [o [Hin Ho]]. apply proj_inj in Ho. by subst o.
  - intros Hin. exists (inj x). split; [done|]. by apply proj_inj.
Qed.

Lemma ListAll_newIndexer_exact (m : gmap string Object) (selector : labels.Selector)
    (l : list T) (e : option error) :
  result_of (cache.ListAll (cache.newIndexer m) selector
               (λ o ret, x ← assert_T o; mret (ret ++ [x])%list) [])
  = Some (l, e) →
  e = None ∧ listed_exactly inj m selector l.
Proof.
  intros Hres.
  apply (ListAll_result assert_T proj assert_proj (cache.newIndexer m) selector
           (map_to_list m).*2 l e eq_refl) in Hres as [-> ->].
  split; [done|]. intros x.
  rewrite elem_of_omap_proj, list_elem_of_filter, elem_of_values.
  unfold labelled. rewrite Is_true_true. tauto.
Qed.

Lemma ListAllByNamespace_newIndexer_exact (m : gmap string Object) (ns : string)
    (selector : labels.Selector) (l : list T) (e : option error) :
  result_of (cache.ListAllByNamespace (cache.newIndexer m) ns selector
               (λ o ret, x ← assert_T o; mret (ret ++ [x])%list) [])
  = Some (l, e) →
  e = None ∧ listed_exactly_in inj m ns selector l.
Proof.
  intros Hres.
  apply (ListAllByNamespace_result assert_T proj assert_proj (cache.newIndexer m)
           selector ns (in_namespace m ns) l e eq_refl) in Hres as [-> ->].
  split; [done|]. intros x.
  rewrite elem_of_omap_proj, list_elem_of_filter, elem_of_in_namespace.
  unfold labelled. rewrite Is_true_true. tauto.
Qed.

End listings_of_a_kind.

Lemma as_Service_inj (o : Object) (x : v1.Service) :
  as_Service o = Some x ↔ o = ServiceObject x.
Proof. destruct o; cbn; split; by intros [= ->]. Qed.

Lemma as_ReplicationController_inj (o : Object) (x : v1.ReplicationController) :
  as_ReplicationController o = Some x ↔ o = ReplicationControllerObject x.
Proof. destruct o; cbn; split; by intros [= ->]. Qed.

Lemma as_kind_inj (kind : string) (o : Object) (meta : metav1.ObjectMeta) :
  as_kind kind o = Some meta ↔ o = OtherObject kind meta.
Proof.
  destruct o as [| | | |k meta']; cbn; try (split; by intros [=]).
  destruct (String.eqb_spec k kind) as [->|Hne].
  - split; by intros [= ->].
  - split; [by intros [=]|]. intros [= -> ->]. by destruct Hne.
Qed.

Lemma as_ServiceAccount_inj (o : Object) (x : v1kinds.ServiceAccount) :
  as_ServiceAccount o = Some x ↔ o = v1kinds.ServiceAccountObject x.
Proof.
  unfold as_ServiceAccount, v1kinds.ServiceAccountObject.
  rewrite <- as_kind_inj. destruct x as [meta], (as_kind _ o); cbn;
    split; by intros [= ->].
Qed.

Lemma as_LimitRange_inj (o : Object) (x : v1kinds.LimitRange) :
  as_LimitRange o = Some x ↔ o = v1kinds.LimitRangeObject x.
Proof.
  unfold as_LimitRange, v1kinds.LimitRangeObject.
  rewrite <- as_kind_inj. destruct x as [meta], (as_kind _ o); cbn;
    split; by intros [= ->].
Qed.

Lemma as_PersistentVolumeClaim_inj (o : Object) (x : v1kinds.PersistentVolumeClaim) :
  as_PersistentVolumeClaim o = Some x ↔ o = v1kinds.PersistentVolumeClaimObject x.
Proof.
  unfold as_PersistentVolumeClaim, v1kinds.PersistentVolumeClaimObject.
  rewrite <- as_kind_inj. destruct x as [meta], (as_kind _ o); cbn;
    split; by intros [= ->].
Qed.

Lemma as_Namespace_inj (o : Object) (x : v1kinds.Namespace) :
  as_Namespace o = Some x ↔ o = v1kinds.NamespaceObject x.
Proof.
  unfold as_Namespace, v1kinds.NamespaceObject.
  rewrite <- as_kind_inj. destruct x as [meta], (as_kind _ o); cbn;
    split; by intros [= ->].
Qed.

(** X16. Over a store state, whatever the whole-store [List] of the
    service, replication-controller, service-account, limit-range, claim
    and namespace listers returns comes without error and holds exactly the
    stored objects of the lister's kind whose labels satisfy the selector:
    no object of the kind is missed and nothing else is returned. *)
Theorem List_lists_exactly_its_kind (m : gmap string Object)
    (selector : labels.Selector) :
  (∀ l e,
     result_of (StoreToServiceLister_List (serviceLister m) selector) = Some (l, e) →
     e = None ∧ listed_exactly ServiceObject m selector l)
  ∧ (∀ l e,
       result_of (StoreToReplicationControllerLister_List (rcLister m) selector)
       = Some (l, e) →
       e = None ∧ listed_exactly ReplicationControllerObject m selector l)
  ∧ (∀ l e,
       result_of (StoreToServiceAccountLister_List
                    {| StoreToServiceAccountLister_Indexer := cache.newIndexer m |}
                    selector)
       = Some (l, e) →
       e = None ∧ listed_exactly v1kinds.ServiceAccountObject m selector l)
  ∧ (∀ l e,
       result_of (StoreToLimitRangeLister_List
                    {| StoreToLimitRangeLister_Indexer := cache.newIndexer m |}
                    selector)
       = Some (l, e) →
       e = None ∧ listed_exactly v1kinds.LimitRangeObject m selector l)
  ∧ (∀ l e,
       result_of (StoreToPersistentVolumeClaimLister_List
                    {| StoreToPersistentVolumeClaimLister_Indexer :=
                         cache.newIndexer m |} selector)
       = Some (l, e) →
       e = None ∧ listed_exactly v1kinds.PersistentVolumeClaimObject m selector l)
  ∧ (∀ l e,
       result_of (IndexerToNamespaceLister_List
                    {| IndexerToNamespaceLister_Indexer := cache.newIndexer m |}
                    selector)
       = Some (l, e) →
       e = None ∧ listed_exactly v1kinds.NamespaceObject m selector l).
Proof.
  repeat apply conj; intros l e.
  - exact (ListAll_newIndexer_exact assert_Service as_Service ServiceObject
             assert_Service_proj as_Service_inj m selector l e).
  - exact (ListAll_newIndexer_exact assert_ReplicationController
             as_ReplicationController ReplicationControllerObject
             assert_ReplicationController_proj as_ReplicationController_inj
             m selector l e).
  - exact (ListAll_newIndexer_exact assert_ServiceAccount as_ServiceAccount
             v1kinds.ServiceAccountObject assert_ServiceAccount_proj
             as_ServiceAccount_inj m selector l e).
  - exact (ListAll_newIndexer_exact assert_LimitRange as_LimitRange
             v1kinds.LimitRangeObject assert_LimitRange_proj as_LimitRange_inj
             m selector l e).
  - exact (ListAll_newIndexer_exact assert_PersistentVolumeClaim
             as_PersistentVolumeClaim v1kinds.PersistentVolumeClaimObject
             assert_PersistentVolumeClaim_proj as_PersistentVolumeClaim_inj
             m selector l e).
  - exact (ListAll_newIndexer_exact assert_Namespace as_Namespace
             v1kinds.NamespaceObject assert_Namespace_proj as_Namespace_inj
             m selector l e).
Qed.

Lemma List_lists_exactly_its_kind_witness :
  ∃ l,
    result_of (StoreToServiceLister_List (serviceLister scenario.services)
                 labels.Everything)
    = Some (l, None)
    ∧ scenario.svcA ∈ l ∧ scenario.svcB ∈ l ∧ length l = 2.
Proof.
  eexists. split; [vm_compute; reflexivity|].
  destruct (List_lists_exactly_its_kind scenario.services labels.Everything)
    as (Hsvc & _).
  destruct (Hsvc _ None eq_refl) as [_ Hexact].
  split; [|split; [|reflexivity]].
  - apply Hexact. split; [by exists "ns1/svcA"|reflexivity].
  - apply Hexact. split; [by exists "ns1/svcB"|reflexivity].
Defined.

(** X17. Over a store state, whatever the namespace-scoped [List] of the
    service, replication-controller, service-account, limit-range and claim
    listers returns comes without error and holds exactly the stored
    objects of the lister's kind that are in the namespace and whose labels
    satisfy the selector. *)
Theorem namespaced_List_lists_exactly_its_kind (m : gmap string Object)
    (ns : string) (selector : labels.Selector) :
  (∀ l e,
     result_of (storeServicesNamespacer_List
                  (StoreToServiceLister_Services (serviceLister m) ns) selector)
     = Some (l, e) →
     e = None ∧ listed_exactly_in ServiceObject m ns selector l)
  ∧ (∀ l e,
       result_of (storeReplicationControllersNamespacer_List
                    (StoreToReplicationControllerLister_ReplicationControllers
                       (rcLister m) ns) selector)
       = Some (l, e) →
       e = None ∧ listed_exactly_in ReplicationControllerObject m ns selector l)
  ∧ (∀ l e,
       result_of (storeServiceAccountsNamespacer_List
                    (StoreToServiceAccountLister_ServiceAccounts
                       {| StoreToServiceAccountLister_Indexer := cache.newIndexer m |}
                       ns) selector)
       = Some (l, e) →
       e = None ∧ listed_exactly_in v1kinds.ServiceAccountObject m ns selector l)
  ∧ (∀ l e,
       result_of (storeLimitRangesNamespacer_List
                    (StoreToLimitRangeLister_LimitRanges
                       {| StoreToLimitRangeLister_Indexer := cache.newIndexer m |}
                       ns) selector)
       = Some (l, e) →
       e = None ∧ listed_exactly_in v1kinds.LimitRangeObject m ns selector l)
  ∧ (∀ l e,
       result_of (storePersistentVolumeClaimsNamespacer_List
                    (StoreToPersistentVolumeClaimLister_PersistentVolumeClaims
                       {| StoreToPersistentVolumeClaimLister_Indexer :=
                            cache.newIndexer m |} ns) selector)
       = Some (l, e) →
       e = None
       ∧ listed_exactly_in v1kinds.PersistentVolumeClaimObject m ns selector l).
Proof.
  repeat apply conj; intros l e.
  - exact (ListAllByNamespace_newIndexer_exact assert_Service as_Service
             ServiceObject assert_Service_proj as_Service_inj m ns selector l e).
  - exact (ListAllByNamespace_newIndexer_exact assert_ReplicationController
             as_ReplicationController ReplicationControllerObject
             assert_ReplicationController_proj as_ReplicationController_inj
             m ns selector l e).
  - exact (ListAllByNamespace_newIndexer_exact assert_ServiceAccount
             as_ServiceAccount v1kinds.ServiceAccountObject
             assert_ServiceAccount_proj as_ServiceAccount_inj m ns selector l e).
  - exact (ListAllByNamespace_newIndexer_exact assert_LimitRange as_LimitRange
             v1kinds.LimitRangeObject assert_LimitRange_proj as_LimitRange_inj
             m ns selector l e).
  - exact (ListAllByNamespace_newIndexer_exact assert_PersistentVolumeClaim
             as_PersistentVolumeClaim v1kinds.PersistentVolumeClaimObject
             assert_PersistentVolumeClaim_proj as_PersistentVolumeClaim_inj
             m ns selector l e).
Qed.

Lemma namespaced_List_lists_exactly_its_kind_witness :
  ∃ l,
    result_of (storeReplicationControllersNamespacer_List
                 (StoreToReplicationControllerLister_ReplicationControllers
                    (rcLister scenario.controllers) "ns1") labels.Everything)
    = Some (l, None)
    ∧ scenario.rcA ∈ l ∧ length l = 3
    ∧ result_of (storeReplicationControllersNamespacer_List
                   (StoreToReplicationControllerLister_ReplicationControllers
                      (rcLister scenario.controllers) "ns2") labels.Everything)
      = Some ([], None).
Proof.
  eexists. split; [vm_compute; reflexivity|].
  destruct (namespaced_List_lists_exactly_its_kind scenario.controllers "ns1"
              labels.Everything) as (_ & Hrc & _).
  destruct (Hrc _ None eq_refl) as [_ Hexact].
  split; [|split; reflexivity].
  apply Hexact. split; [by exists "ns1/rcA"|]. split; reflexivity.
Defined.
